(** * Storage-folder addition of the host contract manager

    A shallow embedding of [modules/host/contractmanager/storagefolderadd.go]:
    the write-ahead-log protocol that adds a storage folder
    ([managedAddStorageFolder], [AddStorageFolder]), the startup scan for
    interrupted additions ([findUnfinishedStorageFolderAdditions],
    [cleanupUnfinishedStorageFolderAdditions]) and the replay of a committed
    addition ([commitAddStorageFolder]).

    Conventions.
    - [uint16] and [uint64] values are integers of [Z]; every wrap-around the
      Go code can perform is written out with [wrap16] and [wrap64].
    - Go maps are [gmap]s, the set [map[uint16]struct{}] is a [gset Z]. The
      iteration order of a Go map is unspecified; the model iterates in the
      order of [map_to_list] and no theorem depends on that order.
    - The file system, the write-ahead-log file, the logger, the entropy
      source and the thread group are collaborators of this file.  They are
      carried by an explicit [World] that every operation threads through; a
      fault schedule in the world decides which collaborator calls fail.
    - A [*storageFolder] is modelled by value.  The only fields the code reads
      through an alias held by the WAL ([Index] and [Path]) are never written
      after the alias has been created.
    - One call runs without interference of other goroutines; the two
      receives on [syncChan] only block and touch no state of this file. *)

From stdpp Require Import gmap strings pretty list fin_maps fin_sets.
From Stdlib Require Import ZArith Lia Ascii.

Local Open Scope string_scope.
Local Open Scope list_scope.
Local Open Scope Z_scope.

(** ** Machine integers *)

Definition wrap16 (z : Z) : Z := z mod 65536.
Definition wrap64 (z : Z) : Z := z mod 18446744073709551616.

(** ** Errors

    Go's [error] is [option error], [None] being [nil].  The sentinel errors
    of the package are constructors; errors that collaborators report are
    [errEnv]. *)

#[warnings="-register-all"] Inductive error : Type :=
| errRepeatFolder
| errMaxStorageFolders
| errLargeStorageFolder
| errSmallStorageFolder
| errStorageFolderGranularity
| errRelativePath
| errStorageFolderNotFolder
| errStopped
| errNotExist (path : string)
| errInvalid
| errEnv (msg : string)
| errExtended (s : string) (e : error)
| errComposed (es : list error).

(** Modelled from the spec: [build.ExtendErr] is declared outside this file
    and the specification says nothing about it beyond its use.  It is kept
    symbolic: the description and the error it is given are recorded as they
    are, and [nil] stays [nil].  Every call in this file passes an error that
    is not [nil]. *)
Definition ExtendErr (s : string) (err : option error) : option error :=
  match err with
  | None => None
  | Some e => Some (errExtended s e)
  end.

(** Modelled from the spec: [build.ComposeErrors] is declared outside this
    file; it is "an error-composition helper that merges multiple concurrent
    errors into one".  The errors merged are recorded as they are; [nil]
    arguments are dropped, and the result is [nil] when nothing is left. *)
Definition ComposeErrors (errs : list (option error)) : option error :=
  match omap id errs with
  | [] => None
  | es => Some (errComposed es)
  end.

(** [mentions e e'] : the error [e'] is [e] or is built from [e]. *)
Fixpoint mentions (e e' : error) {struct e'} : Prop :=
  e = e' ∨
  match e' with
  | errExtended _ e1 => mentions e e1
  | errComposed es =>
      (fix any (l : list error) : Prop :=
         match l with
         | [] => False
         | x :: l' => mentions e x ∨ any l'
         end) es
  | _ => False
  end.

(** ** Data model

    The declarations of [storageFolder] and [stateChange] are outside this
    file; the records below have the fields that this file reads or writes. *)

Record storageFolder : Type := mkStorageFolder {
  Index : Z;                      (* uint16 *)
  Path : string;
  Usage : list Z;                 (* []uint64 *)
  file : option string;           (* handle of the open sector file *)
  atomicProgressNumerator : Z;    (* uint64 *)
  atomicProgressDenominator : Z;  (* uint64 *)
  failedReads : Z                 (* uint64 *)
}.

Record stateChange : Type := mkStateChange {
  UnfinishedStorageFolderAdditions : list storageFolder;
  StorageFolderAdditions : list storageFolder;
  ErroredStorageFolderAdditions : list Z
}.

Definition set_Index (sf : storageFolder) (v : Z) : storageFolder :=
  mkStorageFolder v (Path sf) (Usage sf) (file sf)
    (atomicProgressNumerator sf) (atomicProgressDenominator sf) (failedReads sf).
Definition set_file (sf : storageFolder) (v : option string) : storageFolder :=
  mkStorageFolder (Index sf) (Path sf) (Usage sf) v
    (atomicProgressNumerator sf) (atomicProgressDenominator sf) (failedReads sf).
Definition set_Numerator (sf : storageFolder) (v : Z) : storageFolder :=
  mkStorageFolder (Index sf) (Path sf) (Usage sf) (file sf)
    v (atomicProgressDenominator sf) (failedReads sf).
Definition set_Denominator (sf : storageFolder) (v : Z) : storageFolder :=
  mkStorageFolder (Index sf) (Path sf) (Usage sf) (file sf)
    (atomicProgressNumerator sf) v (failedReads sf).
Definition set_failedReads (sf : storageFolder) (v : Z) : storageFolder :=
  mkStorageFolder (Index sf) (Path sf) (Usage sf) (file sf)
    (atomicProgressNumerator sf) (atomicProgressDenominator sf) v.

Definition pendingChange (sf : storageFolder) : stateChange :=
  mkStateChange [sf] [] [].
Definition committedChange (sf : storageFolder) : stateChange :=
  mkStateChange [] [sf] [].
Definition erroredChange (index : Z) : stateChange :=
  mkStateChange [] [] [index].

(** ** Recovery scan: [findUnfinishedStorageFolderAdditions] *)

(** The body of the loop over [scs]: the three inner loops, in source order. *)
Definition applyStateChange (usfMap : gmap Z storageFolder) (sc : stateChange)
  : gmap Z storageFolder :=
  let m1 := foldl (λ m sf, <[Index sf := sf]> m) usfMap
              (UnfinishedStorageFolderAdditions sc) in
  let m2 := foldl (λ m sf, delete (Index sf) m) m1 (StorageFolderAdditions sc) in
  foldl (λ m index, delete index m) m2 (ErroredStorageFolderAdditions sc).

Definition replayFrom (usfMap : gmap Z storageFolder) (scs : list stateChange)
  : gmap Z storageFolder :=
  foldl applyStateChange usfMap scs.

Definition findUnfinishedStorageFolderAdditions (scs : list stateChange)
  : list storageFolder :=
  (map_to_list (replayFrom ∅ scs)).*2.

(** The log as a flat sequence of entries, in the order in which the loops of
    [findUnfinishedStorageFolderAdditions] visit them: within one
    [stateChange] the pending additions come first, then the committed
    additions, then the errored additions. *)
Inductive walEntry : Type :=
| PendingAddition (sf : storageFolder)
| CommittedAddition (index : Z)
| ErroredAddition (index : Z).

Definition entryIndex (e : walEntry) : Z :=
  match e with
  | PendingAddition sf => Index sf
  | CommittedAddition i => i
  | ErroredAddition i => i
  end.

Definition entriesOf (sc : stateChange) : list walEntry :=
  (PendingAddition <$> UnfinishedStorageFolderAdditions sc)
  ++ ((λ sf, CommittedAddition (Index sf)) <$> StorageFolderAdditions sc)
  ++ (ErroredAddition <$> ErroredStorageFolderAdditions sc).

Definition entries (scs : list stateChange) : list walEntry :=
  scs ≫= entriesOf.

Definition applyEntry (m : gmap Z storageFolder) (e : walEntry)
  : gmap Z storageFolder :=
  match e with
  | PendingAddition sf => <[Index sf := sf]> m
  | CommittedAddition i => delete i m
  | ErroredAddition i => delete i m
  end.

(** The claim of the specification, following its words: the pending-addition
    folders whose index is not named by any later committed-addition or
    errored-addition record. *)
Definition namedBy (index : Z) (sc : stateChange) : bool :=
  bool_decide (index ∈ Index <$> StorageFolderAdditions sc)
  || bool_decide (index ∈ ErroredStorageFolderAdditions sc).

Fixpoint claimedUnfinished (scs : list stateChange) : list storageFolder :=
  match scs with
  | [] => []
  | sc :: later =>
      List.filter (λ sf, negb (existsb (namedBy (Index sf)) later))
        (UnfinishedStorageFolderAdditions sc)
      ++ claimedUnfinished later
  end.

Definition exampleFolder (index : Z) (path : string) : storageFolder :=
  mkStorageFolder index path [0] None 0 0 0.

Definition twoPendingSameIndex : list stateChange :=
  [ pendingChange (exampleFolder 1 "/a"); pendingChange (exampleFolder 1 "/b") ].

(** ** The world: collaborators of the contract manager *)

(** Entries of the file system: a directory, or a file that holds [size]
    bytes.  The code of this file writes only zero bytes ([make([]byte, n)]),
    so the contents of a file are given by its length. *)
Inductive node : Type :=
| Dir
| File (size : Z).

(** Calls made to collaborators that can fail, recorded in program order. *)
Inductive call : Type :=
| CallCreateFile (name : string)
| CallWrite (name : string) (n : Z)
| CallSync (name : string)
| CallRemove (name : string)
| CallOpenFile (name : string)
| CallAppendChange (sc : stateChange).

Inductive logLine : Type :=
| Println (msg : string) (err : option error)
| Critical (msg : string).

Record World : Type := mkWorld {
  storageFolders : gmap Z storageFolder;  (* wal.cm.storageFolders *)
  uncommittedChanges : list stateChange;  (* wal.uncommittedChanges *)
  walRecords : list stateChange;          (* records appended to the WAL file *)
  files : gmap string node;               (* the file system *)
  logLines : list logLine;                (* wal.cm.log *)
  calls : list call;                      (* collaborator calls made so far *)
  faults : list (option error);           (* outcome of the next calls *)
  entropy : list (Z * option error);      (* outcomes of the entropy source *)
  disrupt : string → bool;                (* wal.cm.dependencies.disrupt *)
  tgStopped : bool                        (* cm.tg has been stopped *)
}.

Definition set_storageFolders (w : World) (v : gmap Z storageFolder) : World :=
  mkWorld v (uncommittedChanges w) (walRecords w) (files w) (logLines w)
    (calls w) (faults w) (entropy w) (disrupt w) (tgStopped w).
Definition set_files (w : World) (v : gmap string node) : World :=
  mkWorld (storageFolders w) (uncommittedChanges w) (walRecords w) v (logLines w)
    (calls w) (faults w) (entropy w) (disrupt w) (tgStopped w).
Definition set_entropy (w : World) (v : list (Z * option error)) : World :=
  mkWorld (storageFolders w) (uncommittedChanges w) (walRecords w) (files w)
    (logLines w) (calls w) (faults w) v (disrupt w) (tgStopped w).

(** State passing: a computation takes the world and returns a result and the
    world it leaves. *)
Definition M (A : Type) : Type := World → A * World.

Definition ret {A : Type} (a : A) : M A := λ w, (a, w).
Definition bind {A B : Type} (m : M A) (k : A → M B) : M B :=
  λ w, let '(a, w') := m w in k a w'.

Notation "'let*' x := m 'in' k" := (bind m (λ x, k))
  (at level 10, x pattern, m at level 100, k at level 200).

(** One call to a collaborator: it is recorded, and the head of the fault
    schedule decides whether it fails.  An exhausted schedule means success. *)
Definition perform (c : call) : M (option error) := λ w,
  (default None (head (faults w)),
   mkWorld (storageFolders w) (uncommittedChanges w) (walRecords w) (files w)
     (logLines w) (calls w ++ [c]) (tail (faults w)) (entropy w) (disrupt w)
     (tgStopped w)).

Definition logPrintln (msg : string) (err : option error) : M unit := λ w,
  (tt, mkWorld (storageFolders w) (uncommittedChanges w) (walRecords w) (files w)
         (logLines w ++ [Println msg err]) (calls w) (faults w) (entropy w)
         (disrupt w) (tgStopped w)).

Definition logCritical (msg : string) : M unit := λ w,
  (tt, mkWorld (storageFolders w) (uncommittedChanges w) (walRecords w) (files w)
         (logLines w ++ [Critical msg]) (calls w) (faults w) (entropy w)
         (disrupt w) (tgStopped w)).

(** Modelled from the spec: [crypto.RandIntn] is declared outside this file;
    it is the "bounded-range random integer source" among the collaborators.
    [RandIntn n] consumes the next outcome of the entropy source and returns a
    value from [0] to [n - 1]: an outcome of that range is returned as it is,
    so equally likely outcomes give equally likely results.  A draw can fail,
    and does when the source has nothing left. *)
Definition RandIntn (n : Z) : M (Z * option error) := λ w,
  match entropy w with
  | [] => ((0, Some (errEnv "no entropy")), w)
  | (r, err) :: rest => ((r mod n, err), set_entropy w rest)
  end.

(** Modelled from the spec: [wal.appendChange] is declared outside this file.
    It "serializes and durably appends one StateChange to the log; returns an
    error on I/O failure"; the records not yet confirmed flushed are "held in
    memory" as the uncommitted changes.  A failed append leaves both as they
    were. *)
Definition appendChange (sc : stateChange) : M (option error) :=
  let* r := perform (CallAppendChange sc) in
  match r with
  | Some e => ret (Some e)
  | None => λ w,
      (None,
       mkWorld (storageFolders w) (uncommittedChanges w ++ [sc])
         (walRecords w ++ [sc]) (files w) (logLines w) (calls w) (faults w)
         (entropy w) (disrupt w) (tgStopped w))
  end.

(** File-system capabilities.  [createFile] creates or truncates; a write
    appends [n] zero bytes; [os.Remove] fails on a name that does not exist,
    and [os.OpenFile] with [O_RDWR] alone on a name that is not a file. *)
Definition createFile (name : string) : M (option string * option error) :=
  let* r := perform (CallCreateFile name) in
  match r with
  | Some e => ret (None, Some e)
  | None => λ w, ((Some name, None), set_files w (<[name := File 0]> (files w)))
  end.

Definition fileWrite (f : option string) (n : Z) : M (option error) :=
  match f with
  | None => ret (Some errInvalid)
  | Some name =>
      let* r := perform (CallWrite name n) in
      match r with
      | Some e => ret (Some e)
      | None => λ w,
          (None,
           match files w !! name with
           | Some (File size) => set_files w (<[name := File (size + n)]> (files w))
           | _ => w
           end)
      end
  end.

Definition fileSync (f : option string) : M (option error) :=
  match f with
  | None => ret (Some errInvalid)
  | Some name => perform (CallSync name)
  end.

Definition osRemove (name : string) : M (option error) :=
  let* r := perform (CallRemove name) in
  match r with
  | Some e => ret (Some e)
  | None => λ w,
      match files w !! name with
      | Some _ => (None, set_files w (delete name (files w)))
      | None => (Some (errNotExist name), w)
      end
  end.

Definition osOpenFile (name : string) : M (option string * option error) :=
  let* r := perform (CallOpenFile name) in
  match r with
  | Some e => ret (None, Some e)
  | None => λ w,
      match files w !! name with
      | Some (File _) => ((Some name, None), w)
      | Some Dir => ((None, Some errInvalid), w)
      | None => ((None, Some (errNotExist name)), w)
      end
  end.

(** [os.Stat] followed by [Mode().IsDir()]. *)
Definition osStat (name : string) : M (option node * option error) := λ w,
  match files w !! name with
  | Some n => ((Some n, None), w)
  | None => ((None, Some (errNotExist name)), w)
  end.

Definition IsDir (n : option node) : bool :=
  match n with
  | Some Dir => true
  | _ => false
  end.

(** [filepath.IsAbs] and [filepath.Join] on a Unix system, for paths that are
    already clean. *)
Definition IsAbs (path : string) : bool :=
  match path with
  | String "/"%char _ => true
  | _ => false
  end.

Definition Join (dir name : string) : string := dir +:+ "/" +:+ name.

(** [cm.tg.Add()] *)
Definition tgAdd : M (option error) := λ w,
  (if tgStopped w then Some errStopped else None, w).

Definition getWorld : M World := λ w, (w, w).

(** No call to a collaborator is scheduled to fail. *)
Definition noFaults (w : World) : Prop := Forall (λ o, o = None) (faults w).

(** ** Constants of the package

    Their declarations are not part of this file's source; every definition
    below takes them as a parameter. *)
Record Constants : Type := mkConstants {
  SectorSize : Z;                       (* modules.SectorSize *)
  sectorMetadataDiskSize : Z;
  sectorFile : string;
  maximumStorageFolders : Z;
  maximumSectorsPerStorageFolder : Z;
  minimumSectorsPerStorageFolder : Z;
  storageFolderGranularity : Z
}.

(** The paths and indices that the first locked block of
    [managedAddStorageFolder] collects. *)
Definition committedFolders (w : World) : list storageFolder :=
  (map_to_list (storageFolders w)).*2.

Definition pendingFolders (w : World) : list storageFolder :=
  uncommittedChanges w ≫= UnfinishedStorageFolderAdditions.

Definition uniqueFolders (w : World) : gset Z :=
  list_to_set (Index <$> committedFolders w)
  ∪ list_to_set (Index <$> pendingFolders w).

(** The loop [for iterator = 0; iterator < 65536; iterator++]: [fuel] is the
    number of iterations that remain; the result is the final value of
    [iterator] and of [index]. *)
Fixpoint probe (fuel : nat) (uniq : gset Z) (iterator index : Z) : Z * Z :=
  match fuel with
  | O => (iterator, index)
  | S fuel' =>
      if decide (index ∈ uniq)
      then probe fuel' uniq (iterator + 1) (wrap16 (index + 1))
      else (iterator, index)
  end.

(** The number of iterations of that loop. *)
Definition probeCount : nat := Z.to_nat 65536.
Global Opaque probeCount.

Section ContractManager.

Variable c : Constants.

Definition numSectors (sf : storageFolder) : Z :=
  wrap64 (Z.of_nat (length (Usage sf)) * 64).
Definition sectorLookupSize (sf : storageFolder) : Z :=
  wrap64 (numSectors sf * sectorMetadataDiskSize c).
Definition sectorHousingSize (sf : storageFolder) : Z :=
  wrap64 (numSectors sf * SectorSize c).
Definition totalSize (sf : storageFolder) : Z :=
  wrap64 (sectorLookupSize sf + sectorHousingSize sf).
Definition sectorHousingName (sf : storageFolder) : string :=
  Join (Path sf) (sectorFile c).

(** Index assignment (source lines 117-141): a random starting place, then a
    scan for an index that is not in [uniq]. *)
Definition fullMessage : string :=
  "Previous check indicated that there was room to add another storage folder, but folderLocations set is full.".

Definition assignIndex (sf : storageFolder) (uniq : gset Z)
  : M (option error * storageFolder) :=
  let* (rand, err) := RandIntn 65536 in
  let* _ := match err with
            | Some _ => logCritical
                "no entropy for random iteration when adding a storage folder"
            | None => ret tt
            end in
  let '(iterator, index) := probe probeCount uniq 0 (wrap16 rand) in
  if iterator =? 65536
  then
    let* _ := logCritical fullMessage in
    ret (Some errMaxStorageFolders, sf)
  else ret (None, set_Index sf index).

(** The world in which the scan of [assignIndex] runs: the entropy source has
    been read and its failure, if any, logged. *)
Definition afterEntropy (w : World) : World :=
  (match (RandIntn 65536 w).1.2 with
   | Some _ => logCritical
       "no entropy for random iteration when adding a storage folder"
   | None => ret tt
   end (RandIntn 65536 w).2).2.

(** Creation of the sector file and the pending-addition record (source lines
    143-162). *)
Definition createAndAnnounce (sf : storageFolder)
  : M (option error * storageFolder) :=
  let* (f, err) := createFile (sectorHousingName sf) in
  let sf := set_file sf f in
  match err with
  | Some _ => ret (ExtendErr "could not create storage folder file" err, sf)
  | None =>
      let sf := set_Denominator sf (totalSize sf) in
      (* the error of this appendChange is not looked at *)
      let* _ := appendChange (pendingChange sf) in
      ret (None, sf)
  end.

(** The first locked block (source lines 66-163).  It returns the error of the
    block and the storage folder as the block leaves it. *)
Definition addLocked (sf : storageFolder) : M (option error * storageFolder) :=
  let* w := getWorld in
  if bool_decide (Path sf ∈ Path <$> committedFolders w)
  then ret (Some errRepeatFolder, sf)
  else if bool_decide (Path sf ∈ Path <$> pendingFolders w)
  then ret (Some errRepeatFolder, sf)
  else
    let uniq := uniqueFolders w in
    if Z.of_nat (size uniq) >? maximumStorageFolders c
    then ret (Some errMaxStorageFolders, sf)
    else
      let* (err, sf) := assignIndex sf uniq in
      match err with
      | Some _ => ret (err, sf)
      | None => createAndAnnounce sf
      end.

(** The loop that writes the full chunks (source lines 197-204). *)
Fixpoint writeChunks (n : nat) (sf : storageFolder)
  : M (option error * storageFolder) :=
  match n with
  | O => ret (None, sf)
  | S n' =>
      let* err := fileWrite (file sf) 4000000 in
      match err with
      | Some _ => ret (err, sf)
      | None =>
          writeChunks n'
            (set_Numerator sf (wrap64 (atomicProgressNumerator sf + 4000000)))
      end
  end.

(** Allocation (source lines 193-215).  The result is the value of a [return]
    statement reached in these lines if there is one (with [true]), the value
    of the local variable [err] at that point, and the storage folder. *)
Definition allocate (sf : storageFolder)
  : M (bool * option error * option error * storageFolder) :=
  let writeCount := totalSize sf / 4000000 in
  let finalWriteSize := totalSize sf mod 4000000 in
  let* (err, sf) := writeChunks (Z.to_nat writeCount) sf in
  match err with
  | Some _ =>
      ret (true, ExtendErr "could not allocate storage folder" err, err, sf)
  | None =>
      let* err := fileWrite (file sf) finalWriteSize in
      match err with
      | Some _ =>
          ret (true, ExtendErr "could not allocate storage folder" err, err, sf)
      | None =>
          let* err := fileSync (file sf) in
          match err with
          | Some _ =>
              ret (true,
                   ExtendErr "could not syncronize allocated storage folder" err,
                   err, sf)
          | None =>
              ret (false, None, None, set_Denominator sf (totalSize sf))
          end
      end
  end.

(** The second locked block (source lines 229-248). *)
Definition commitLocked (sf : storageFolder) : M (option error * storageFolder) :=
  let sf := set_Numerator sf 0 in
  let sf := set_Denominator sf 0 in
  let* _ := (λ w, (tt, set_storageFolders w (<[Index sf := sf]> (storageFolders w)))) in
  let* err := appendChange (committedChange sf) in
  match err with
  | Some _ =>
      ret (ExtendErr "storage folder commitment assignment failed" err, sf)
  | None => ret (None, sf)
  end.

(** Everything after the [defer] statement (source lines 189-256): the value
    of the [return] statement that ends the function, the value of the local
    variable [err] at that moment, and the storage folder. *)
Definition addBody (sf : storageFolder)
  : M (option error * option error * storageFolder) :=
  let* (returned, result, err, sf) := allocate sf in
  if returned : bool then ret (result, err, sf)
  else
    let* w := getWorld in
    if disrupt w "incompleteAddStorageFolder"
    then ret (None, err, sf)
    else
      let* (err, sf) := commitLocked sf in
      match err with
      | Some _ => ret (err, err, sf)
      | None => ret (None, err, sf)
      end.

(** The deferred function (source lines 176-187).  Its result is the value it
    leaves in the local variable [err]. *)
Definition deferredRollback (name : string) (sf : storageFolder)
  (err : option error) : M (option error) :=
  match err with
  | None => ret None
  | Some _ =>
      let* r := appendChange (erroredChange (Index sf)) in
      let err := ComposeErrors [err; r] in
      let* r := osRemove name in
      ret (ComposeErrors [err; r])
  end.

(** [managedAddStorageFolder].  The function has an unnamed result: a
    [return x] statement fixes the result to the value of [x] before the
    deferred function runs, and the deferred function assigns to the local
    variable [err] only. *)
Definition managedAddStorageFolder (sf : storageFolder)
  : M (option error * storageFolder) :=
  let name := sectorHousingName sf in
  let* (err, sf) := addLocked sf in
  match err with
  | Some _ => ret (err, sf)
  | None =>
      (* <-syncChan *)
      let* (result, err, sf) := addBody sf in
      let* _ := deferredRollback name sf err in
      ret (result, sf)
  end.

(** [cleanupUnfinishedStorageFolderAdditions]: the body of the loop over
    [sfs] (its result is the error with which the body returns from the
    function, if it does), the loop, then the function. *)
Definition cleanupOne (sf : storageFolder) : M (option error) :=
  let name := sectorHousingName sf in
  let* err := osRemove name in
  let* _ := match err with
            | Some _ => logPrintln
                ("Unable to remove documented sector housing: " +:+ name) err
            | None => ret tt
            end in
  let* err := appendChange (erroredChange (Index sf)) in
  ret (ExtendErr "unable to close out unfinished storage folder addition" err).

Fixpoint cleanupLoop (sfs : list storageFolder) : M (option error) :=
  match sfs with
  | [] => ret None
  | sf :: rest =>
      let* err := cleanupOne sf in
      match err with
      | Some _ => ret err
      | None => cleanupLoop rest
      end
  end.

(** The collaborator calls of one iteration of that loop. *)
Definition cleanupCalls (sf : storageFolder) : list call :=
  [CallRemove (sectorHousingName sf);
   CallAppendChange (erroredChange (Index sf))].

Definition cleanupUnfinishedStorageFolderAdditions (scs : list stateChange)
  : M (option error) :=
  cleanupLoop (findUnfinishedStorageFolderAdditions scs).

(** [commitAddStorageFolder]: the function has no result; the model returns
    the storage folder as the function leaves it. *)
Definition commitAddStorageFolder (sf : storageFolder) : M storageFolder :=
  let* (f, err) := osOpenFile (sectorHousingName sf) in
  let sf := set_file sf f in
  let* sf := match err with
             | Some _ =>
                 let sf := set_failedReads sf (wrap64 (failedReads sf + 1)) in
                 let* _ := logPrintln "Difficulties opening storage folder:" err in
                 ret sf
             | None => ret sf
             end in
  let* _ := (λ w, (tt, set_storageFolders w (<[Index sf := sf]> (storageFolders w)))) in
  ret sf.

(** The storage folder object that [AddStorageFolder] creates (source lines
    336-339); the fields that the literal does not name are zero. *)
Definition newStorageFolder (path : string) (size : Z) : storageFolder :=
  mkStorageFolder 0 path (replicate (Z.to_nat (size / SectorSize c / 64)) 0)
    None 0 0 0.

(** [AddStorageFolder]; [size] is a [uint64]. *)
Definition AddStorageFolder (path : string) (size : Z) : M (option error) :=
  let* err := tgAdd in
  match err with
  | Some _ => ret err
  | None =>
      let sectors := size / SectorSize c in
      if sectors >? maximumSectorsPerStorageFolder c
      then ret (Some errLargeStorageFolder)
      else if sectors <? minimumSectorsPerStorageFolder c
      then ret (Some errSmallStorageFolder)
      else if negb ((size / SectorSize c) mod storageFolderGranularity c =? 0)
      then ret (Some errStorageFolderGranularity)
      else if negb (IsAbs path)
      then ret (Some errRelativePath)
      else
        let* (pathInfo, err) := osStat path in
        match err with
        | Some _ => ret err
        | None =>
            if negb (IsDir pathInfo)
            then ret (Some errStorageFolderNotFolder)
            else
              let newSF := newStorageFolder path size in
              let* (err, _) := managedAddStorageFolder newSF in
              match err with
              | Some _ =>
                  let* _ := logPrintln "Call to AddStorageFolder has failed:" err in
                  ret err
              | None => ret None
              end
        end
  end.

(** A request that passes the checks of [AddStorageFolder] itself. *)
Definition validRequest (path : string) (size : Z) (w : World) : Prop :=
  tgStopped w = false
  ∧ 0 ≤ size < 18446744073709551616
  ∧ minimumSectorsPerStorageFolder c ≤ size / SectorSize c
    ≤ maximumSectorsPerStorageFolder c
  ∧ (size / SectorSize c) mod storageFolderGranularity c = 0
  ∧ IsAbs path = true
  ∧ files w !! path = Some Dir.

(** Constants for which the size computation of [managedAddStorageFolder]
    is exact: the granularity is a multiple of the 64 sectors of one usage
    word, and the largest folder fits in a [uint64]. *)
Definition wfConstants : Prop :=
  0 ≤ SectorSize c
  ∧ 0 ≤ sectorMetadataDiskSize c
  ∧ (64 | storageFolderGranularity c)
  ∧ maximumSectorsPerStorageFolder c * (SectorSize c + sectorMetadataDiskSize c)
    < 18446744073709551616.

End ContractManager.

(** ** Concrete configurations and states used by the examples *)

(** A small configuration: sectors of 4 KiB, at most 8 storage folders. *)
Definition smallConstants : Constants :=
  mkConstants 4096 14 "siahostdata.dat" 8 4096 64 64.

(** A production-sized configuration: sectors of 4 MiB, 65536 folders. *)
Definition largeConstants : Constants :=
  mkConstants 4194304 14 "siahostdata.dat" 65536 4294967296 64 64.

Definition registered (index : Z) (path : string) : Z * storageFolder :=
  (index,
   mkStorageFolder index path [0] (Some (Join path "siahostdata.dat")) 0 0 0).

Definition directories (paths : list string) : gmap string node :=
  list_to_map ((λ p, (p, Dir)) <$> paths).

(** An empty contract manager with one directory to add. *)
Definition freshWorld : World :=
  mkWorld ∅ [] [] (directories ["/data"]) [] [] [] [(7, None)] (λ _, false) false.

(** Eight folders are registered: as many as [smallConstants] allows. *)
Definition eightFolders : gmap Z storageFolder :=
  list_to_map [ registered 0 "/f0"; registered 1 "/f1"; registered 2 "/f2";
                registered 3 "/f3"; registered 4 "/f4"; registered 5 "/f5";
                registered 6 "/f6"; registered 7 "/f7" ].

Definition atCapacityWorld : World :=
  mkWorld eightFolders [] []
    (directories ["/data"; "/f0"; "/f1"; "/f2"; "/f3"; "/f4"; "/f5"; "/f6"; "/f7"])
    [] [] [] [(3, None)] (λ _, false) false.

(** Every index is taken: folder [i] lives in the directory ["/f<i>"]. *)
Definition numbered (i : Z) : storageFolder :=
  mkStorageFolder i ("/f" +:+ pretty i) [0] None 0 0 0.

Definition fullRegistry : gmap Z storageFolder :=
  list_to_map ((λ i, (i, numbered i)) <$> seqZ 0 65536).

Definition fullWorld : World :=
  mkWorld fullRegistry [] [] (directories ["/data"]) [] [] [] [(12345, None)]
    (λ _, false) false.

(** The sync of the new file fails, and so does its removal afterwards. *)
Definition syncAndRemoveFail : World :=
  mkWorld ∅ [] [] (directories ["/data"]) [] []
    [None; None; None; Some (errEnv "sync: input/output error"); None;
     Some (errEnv "remove: permission denied")]
    [(7, None)] (λ _, false) false.

(** Three additions were interrupted; during the cleanup the second append of
    an errored-addition record fails. *)
Definition threeUnfinished : list stateChange :=
  [ pendingChange (exampleFolder 1 "/a");
    pendingChange (exampleFolder 2 "/b");
    pendingChange (exampleFolder 3 "/c") ].

Definition secondAppendFails : World :=
  mkWorld ∅ [] []
    (<["/a/siahostdata.dat" := File 263040]>
       (<["/b/siahostdata.dat" := File 263040]>
          (<["/c/siahostdata.dat" := File 263040]>
             (directories ["/a"; "/b"; "/c"]))))
    [] []
    [None; None; None; Some (errEnv "write: no space left on device")]
    [] (λ _, false) false.

(** A committed addition is replayed but its sector file is gone. *)
Definition missingFileWorld : World :=
  mkWorld ∅ [] [] (directories ["/data"]) [] [] [] [] (λ _, false) false.

(** The fault-injection hook fires. *)
Definition disruptedWorld : World :=
  mkWorld ∅ [] [] (directories ["/data"]) [] [] [] [(7, None)]
    (λ name, String.eqb name "incompleteAddStorageFolder") false.

(** ** Invariants of the registry *)

(** Every folder of the registry is stored under its own index. *)
Definition wellKeyed (m : gmap Z storageFolder) : Prop :=
  ∀ k f, m !! k = Some f → Index f = k.

(** No two folders of the registry have the same path. *)
Definition distinctPaths (m : gmap Z storageFolder) : Prop :=
  ∀ k1 k2 f1 f2, m !! k1 = Some f1 → m !! k2 = Some f2 →
                 Path f1 = Path f2 → k1 = k2.

(** ** Further states used by the examples *)

(** An empty contract manager with the directory ["/data"] and a given
    schedule of collaborator outcomes. *)
Definition scheduled (fl : list (option error)) : World :=
  mkWorld ∅ [] [] (directories ["/data"]) [] [] fl [(7, None)] (λ _, false) false.

(** One folder is registered. *)
Definition oneFolderWorld : World :=
  mkWorld {[ 3 := (registered 3 "/f3").2 ]} [] []
    (directories ["/data"; "/f3"]) [] [] [] [(3, None)] (λ _, false) false.

(** Nine folders are registered, one more than [smallConstants] allows. *)
Definition overfullWorld : World :=
  mkWorld (<[8 := (registered 8 "/f8").2]> eightFolders) [] []
    (directories ["/data"; "/f0"; "/f1"; "/f2"; "/f3"; "/f4"; "/f5"; "/f6";
                  "/f7"; "/f8"])
    [] [] [] [(3, None)] (λ _, false) false.

(** Eight registered folders with the indices 0 to 7 and two additions that
    are still pending, with the indices 8 and 9; the entropy source gives 7. *)
Definition pendingWorld : World :=
  mkWorld eightFolders
    [pendingChange (exampleFolder 8 "/p8"); pendingChange (exampleFolder 9 "/p9")]
    [pendingChange (exampleFolder 8 "/p8"); pendingChange (exampleFolder 9 "/p9")]
    (directories ["/data"]) [] [] [] [(7, None)] (λ _, false) false.

(** * Theorems *)

(** ** The recovery scan *)

Lemma applyStateChange_entries (m : gmap Z storageFolder) (sc : stateChange) :
  applyStateChange m sc = foldl applyEntry m (entriesOf sc).
Proof.
  unfold applyStateChange, entriesOf.
  rewrite !foldl_app, !foldl_fmap. reflexivity.
Qed.

Lemma replayFrom_entries (scs : list stateChange) :
  ∀ m, replayFrom m scs = foldl applyEntry m (entries scs).
Proof.
  unfold replayFrom, entries.
  induction scs as [|sc scs IH]; intros m; simpl; [reflexivity|].
  rewrite foldl_app, IH, applyStateChange_entries. reflexivity.
Qed.

Lemma replayFrom_app (m : gmap Z storageFolder) (scs1 scs2 : list stateChange) :
  replayFrom m (scs1 ++ scs2) = replayFrom (replayFrom m scs1) scs2.
Proof. unfold replayFrom. apply foldl_app. Qed.

Lemma applyEntry_lookup_ne (m : gmap Z storageFolder) (e : walEntry) (i : Z) :
  entryIndex e ≠ i → applyEntry m e !! i = m !! i.
Proof.
  destruct e; simpl; intros Hne.
  - by rewrite lookup_insert_ne.
  - by rewrite lookup_delete_ne.
  - by rewrite lookup_delete_ne.
Qed.

Lemma applyEntry_lookup_eq (m : gmap Z storageFolder) (e : walEntry) (sf : storageFolder) :
  applyEntry m e !! entryIndex e = Some sf → e = PendingAddition sf.
Proof.
  destruct e; simpl.
  - rewrite lookup_insert_eq. congruence.
  - by rewrite lookup_delete_eq.
  - by rewrite lookup_delete_eq.
Qed.

(** The entry that decides index [i]: the last one that names it. *)
Lemma foldl_applyEntry_lookup (evs : list walEntry) :
  ∀ (m : gmap Z storageFolder) (i : Z) (sf : storageFolder),
    foldl applyEntry m evs !! i = Some sf ↔
    (∃ pre post, evs = pre ++ PendingAddition sf :: post ∧ Index sf = i
                 ∧ Forall (λ e, entryIndex e ≠ i) post)
    ∨ (m !! i = Some sf ∧ Forall (λ e, entryIndex e ≠ i) evs).
Proof.
  induction evs as [|e evs IH]; intros m i sf; simpl.
  - split.
    + intros H. right. split; [exact H | constructor].
    + intros [(pre & post & Heq & _)|[H _]]; [|exact H].
      by destruct pre.
  - rewrite IH. split.
    + intros [(pre & post & -> & Hi & Hpost)|[Hm Hall]].
      * left. exists (e :: pre), post. done.
      * destruct (decide (entryIndex e = i)) as [<-|Hne].
        -- apply applyEntry_lookup_eq in Hm as ->.
           left. exists [], evs. done.
        -- rewrite applyEntry_lookup_ne in Hm by done.
           right. split; [done|]. by constructor.
    + intros [(pre & post & Heq & Hi & Hpost)|[Hm Hall]].
      * destruct pre as [|e' pre]; simpl in Heq; injection Heq as -> ->.
        -- right. split; [|done]. simpl. rewrite <- Hi. apply lookup_insert_eq.
        -- left. exists pre, post. done.
      * apply Forall_cons in Hall as [Hne Hall].
        right. split; [|done]. by rewrite applyEntry_lookup_ne.
Qed.

Lemma replayFrom_empty_lookup (scs : list stateChange) (i : Z) (sf : storageFolder) :
  replayFrom ∅ scs !! i = Some sf ↔
  ∃ pre post, entries scs = pre ++ PendingAddition sf :: post ∧ Index sf = i
              ∧ Forall (λ e, entryIndex e ≠ i) post.
Proof.
  rewrite replayFrom_entries, foldl_applyEntry_lookup. split.
  - intros [H|[H _]]; [exact H|]. by rewrite lookup_empty in H.
  - intros H. by left.
Qed.

Lemma keyed_values_indices (l : list (Z * storageFolder)) :
  Forall (λ kv, Index kv.2 = kv.1) l → Index <$> l.*2 = l.*1.
Proof.
  induction 1 as [|[k v] l Hkv _ IH]; [reflexivity|].
  rewrite !fmap_cons. simpl in *. by f_equal.
Qed.

(** C2 (as amended): the scan returns, for every index, the folder of the last
    pending-addition entry for that index, provided that no entry for the
    index (pending, committed or errored) follows it in the order in which
    the log is replayed; it returns nothing else, at most one folder per
    index, and the replay is a left fold that can be resumed at any point. *)
Theorem findUnfinished_last_entry_decides (scs : list stateChange) :
  (∀ sf, sf ∈ findUnfinishedStorageFolderAdditions scs ↔
         ∃ pre post, entries scs = pre ++ PendingAddition sf :: post
                     ∧ Forall (λ e, entryIndex e ≠ Index sf) post)
  ∧ NoDup (Index <$> findUnfinishedStorageFolderAdditions scs)
  ∧ (∀ scs1 scs2, scs = scs1 ++ scs2 →
       findUnfinishedStorageFolderAdditions scs
       = (map_to_list (replayFrom (replayFrom ∅ scs1) scs2)).*2).
Proof.
  unfold findUnfinishedStorageFolderAdditions. split; [|split].
  - intros sf. rewrite list_elem_of_fmap. split.
    + intros ([i sf'] & -> & Hin). simpl.
      apply elem_of_map_to_list in Hin.
      apply replayFrom_empty_lookup in Hin as (pre & post & Heq & <- & Hpost).
      eauto.
    + intros (pre & post & Heq & Hpost).
      exists (Index sf, sf). split; [reflexivity|].
      apply elem_of_map_to_list, replayFrom_empty_lookup. eauto.
  - rewrite keyed_values_indices; [apply NoDup_fst_map_to_list|].
    apply Forall_forall. intros [i sf] Hin. simpl.
    apply elem_of_map_to_list in Hin.
    by apply replayFrom_empty_lookup in Hin as (_ & _ & _ & ? & _).
  - intros scs1 scs2 ->. by rewrite replayFrom_app.
Qed.

(** C2 (as stated) fails: of two pending additions with the same index, none
    of them committed or errored later, only the second is returned. *)
Lemma findUnfinished_not_all_uncancelled :
  ¬ (findUnfinishedStorageFolderAdditions twoPendingSameIndex
     ≡ₚ claimedUnfinished twoPendingSameIndex).
Proof.
  intros H. apply Permutation_length in H. vm_compute in H. discriminate H.
Qed.

(** ** Index assignment *)

Lemma wrap16_range (z : Z) : 0 ≤ wrap16 z < 65536.
Proof. unfold wrap16. apply Z.mod_pos_bound. lia. Qed.

Lemma wrap16_small (z : Z) : 0 ≤ z < 65536 → wrap16 z = z.
Proof. unfold wrap16. apply Z.mod_small. Qed.

Lemma wrap16_succ (z k : Z) : wrap16 (wrap16 (z + 1) + k) = wrap16 (z + (k + 1)).
Proof.
  unfold wrap16. rewrite Zplus_mod_idemp_l. f_equal. lia.
Qed.

Lemma probe_spec (uniq : gset Z) (fuel : nat) :
  ∀ iterator index, 0 ≤ index < 65536 →
    iterator ≤ (probe fuel uniq iterator index).1 ≤ iterator + Z.of_nat fuel
    ∧ (probe fuel uniq iterator index).2
      = wrap16 (index + ((probe fuel uniq iterator index).1 - iterator))
    ∧ (∀ k, 0 ≤ k < (probe fuel uniq iterator index).1 - iterator →
         wrap16 (index + k) ∈ uniq)
    ∧ ((probe fuel uniq iterator index).1 < iterator + Z.of_nat fuel →
         (probe fuel uniq iterator index).2 ∉ uniq).
Proof.
  induction fuel as [|fuel IH]; intros iterator index Hidx;
    [simpl | rewrite Nat2Z.inj_succ; cbn [probe]].
  - replace (iterator - iterator) with 0 by lia.
    rewrite !Z.add_0_r, wrap16_small by done.
    repeat split; try lia.
  - destruct (decide (index ∈ uniq)) as [Hin|Hout]; simpl.
    + specialize (IH (iterator + 1) (wrap16 (index + 1)) (wrap16_range _)).
      destruct IH as (Hle & Heq & Hused & Hfree).
      repeat split; try lia.
      * rewrite Heq, wrap16_succ. f_equal. lia.
      * intros k Hk. destruct (decide (k = 0)) as [->|Hk0].
        -- by rewrite Z.add_0_r, wrap16_small.
        -- replace k with ((k - 1) + 1) by lia.
           rewrite <- wrap16_succ. apply Hused. lia.
      * intros Hlt. apply Hfree. lia.
    + replace (iterator - iterator) with 0 by lia.
      rewrite !Z.add_0_r, wrap16_small by done.
      repeat split; try lia; done.
Qed.

(** The probe visits every index once: it gives up exactly when all of them
    are in use. *)
Lemma probeCount_eq : Z.of_nat probeCount = 65536.
Proof. with_strategy transparent [probeCount] (unfold probeCount). lia. Qed.

Lemma probe_exhausted (uniq : gset Z) (start : Z) :
  0 ≤ start < 65536 →
  (probe probeCount uniq 0 start).1 = 65536 ↔
  (∀ i, 0 ≤ i < 65536 → i ∈ uniq).
Proof.
  intros Hstart.
  destruct (probe_spec uniq probeCount 0 start Hstart)
    as (Hle & Heq & Hused & Hfree).
  rewrite probeCount_eq in Hle, Hfree. rewrite Z.sub_0_r in Heq, Hused. split.
  - intros Hit i Hi. rewrite Hit in Hused.
    specialize (Hused ((i - start) mod 65536)).
    replace (wrap16 (start + (i - start) mod 65536)) with i in Hused.
    + apply Hused. pose proof (Z.mod_pos_bound (i - start) 65536). lia.
    + unfold wrap16. rewrite Zplus_mod_idemp_r.
      replace (start + (i - start)) with i by lia.
      symmetry. by apply Z.mod_small.
  - intros Hall.
    destruct (decide ((probe probeCount uniq 0 start).1 = 65536)) as [|Hne];
      [done|].
    exfalso. apply Hfree; [lia|].
    rewrite Heq. apply Hall, wrap16_range.
Qed.

Lemma probe_finds_free (uniq : gset Z) (start : Z) :
  0 ≤ start < 65536 →
  (∃ i, 0 ≤ i < 65536 ∧ i ∉ uniq) →
  ∀ iterator index, probe probeCount uniq 0 start = (iterator, index) →
  0 ≤ iterator < 65536 ∧ index = wrap16 (start + iterator) ∧ (index ∉ uniq)
  ∧ (∀ k, 0 ≤ k < iterator → wrap16 (start + k) ∈ uniq).
Proof.
  intros Hstart (i & Hi & Hfree_i) iterator index Hprobe.
  destruct (probe_spec uniq probeCount 0 start Hstart)
    as (Hle & Heq & Hused & Hfree).
  pose proof (proj1 (probe_exhausted uniq start Hstart)) as Hfull.
  rewrite Hprobe in *. cbn [fst snd] in *.
  rewrite probeCount_eq in Hle, Hfree. rewrite Z.sub_0_r in Heq, Hused.
  assert (iterator ≠ 65536) as Hne.
  { intros Hit. apply Hfree_i. by apply Hfull. }
  repeat split; try lia; try done. apply Hfree. lia.
Qed.

Lemma elem_of_uniqueFolders (w : World) (i : Z) :
  i ∈ uniqueFolders w ↔
  ∃ f, (f ∈ committedFolders w ∨ f ∈ pendingFolders w) ∧ Index f = i.
Proof.
  unfold uniqueFolders.
  rewrite elem_of_union, !elem_of_list_to_set, !list_elem_of_fmap. split.
  - intros [(f & -> & Hf)|(f & -> & Hf)]; eauto.
  - intros (f & [Hf|Hf] & <-); [left|right]; eauto.
Qed.

Lemma uniqueFolders_spec (w : World) (i : Z) :
  i ∈ uniqueFolders w ↔
  (∃ k f, storageFolders w !! k = Some f ∧ Index f = i)
  ∨ (∃ uc f, uc ∈ uncommittedChanges w
             ∧ f ∈ UnfinishedStorageFolderAdditions uc ∧ Index f = i).
Proof.
  rewrite elem_of_uniqueFolders. unfold committedFolders, pendingFolders. split.
  - intros (f & [Hf|Hf] & <-).
    + left. apply list_elem_of_fmap in Hf as ([k f'] & -> & Hf).
      apply elem_of_map_to_list in Hf. by exists k, f'.
    + right. apply list_elem_of_bind in Hf as (uc & Hf & Huc). by exists uc, f.
  - intros [(k & f & Hf & <-)|(uc & f & Huc & Hf & <-)]; exists f; (split; [|done]).
    + left. apply list_elem_of_fmap. exists (k, f). split; [done|].
      by apply elem_of_map_to_list.
    + right. apply list_elem_of_bind. by exists uc.
Qed.

Lemma RandIntn_range (w : World) : 0 ≤ (RandIntn 65536 w).1.1 < 65536.
Proof.
  unfold RandIntn. destruct (entropy w) as [|[r err] rest]; cbn [fst snd]; [lia|].
  apply Z.mod_pos_bound. lia.
Qed.

Lemma RandIntn_outcome (w : World) (v : Z) (e : option error)
  (rest : list (Z * option error)) :
  entropy w = (v, e) :: rest → 0 ≤ v < 65536 → (RandIntn 65536 w).1.1 = v.
Proof.
  intros Hent Hv. unfold RandIntn. rewrite Hent. cbn [fst snd].
  by apply Z.mod_small.
Qed.

Lemma afterEntropy_frame (w : World) :
  storageFolders (afterEntropy w) = storageFolders w
  ∧ uncommittedChanges (afterEntropy w) = uncommittedChanges w
  ∧ walRecords (afterEntropy w) = walRecords w
  ∧ files (afterEntropy w) = files w
  ∧ calls (afterEntropy w) = calls w
  ∧ faults (afterEntropy w) = faults w
  ∧ disrupt (afterEntropy w) = disrupt w.
Proof.
  unfold afterEntropy, RandIntn.
  by destruct (entropy w) as [|[rand [e|]] rest].
Qed.

Lemma afterEntropy_logLines (w : World) :
  ∃ extra, logLines (afterEntropy w) = logLines w ++ extra
           ∧ Critical fullMessage ∉ extra.
Proof.
  unfold afterEntropy, RandIntn.
  destruct (entropy w) as [|[rand [e|]] rest]; cbn -[fullMessage].
  - eexists [_]. split; [reflexivity|]. rewrite list_elem_of_singleton. discriminate.
  - eexists [_]. split; [reflexivity|]. rewrite list_elem_of_singleton. discriminate.
  - exists []. rewrite app_nil_r. split; [done|]. apply not_elem_of_nil.
Qed.

(** The two ways in which [assignIndex] ends. *)
Lemma assignIndex_run (sf : storageFolder) (uniq : gset Z) (w : World) :
  assignIndex sf uniq w =
  (if (probe probeCount uniq 0 (wrap16 (RandIntn 65536 w).1.1)).1 =? 65536
   then (Some errMaxStorageFolders, sf, (logCritical fullMessage (afterEntropy w)).2)
   else (None,
         set_Index sf (probe probeCount uniq 0 (wrap16 (RandIntn 65536 w).1.1)).2,
         afterEntropy w)).
Proof.
  unfold assignIndex, afterEntropy, bind, ret, RandIntn.
  destruct (entropy w) as [|[rand [e|]] rest]; cbn [fst snd];
    destruct (probe _ _ _ _) as [iterator index]; cbn [fst snd];
    destruct (iterator =? 65536); reflexivity.
Qed.


(** ** The phases of [managedAddStorageFolder] *)

Ltac next_fault H fl :=
  destruct fl as [|[?|] fl];
  [ | exfalso; apply Forall_cons in H as [H _]; discriminate H
    | apply Forall_cons in H as [_ H] ].

Section Phases.

Variable c : Constants.

Lemma addLocked_duplicate (sf : storageFolder) (w : World) :
  Path sf ∈ Path <$> committedFolders w ∨ Path sf ∈ Path <$> pendingFolders w →
  addLocked c sf w = (Some errRepeatFolder, sf, w).
Proof.
  intros Hdup. unfold addLocked, bind, getWorld, ret.
  destruct (decide (Path sf ∈ Path <$> committedFolders w)) as [Hc|Hc].
  - by rewrite bool_decide_eq_true_2.
  - rewrite (bool_decide_eq_false_2 _ Hc).
    destruct Hdup as [?|Hp]; [done|]. by rewrite bool_decide_eq_true_2.
Qed.

Lemma addLocked_checked (sf : storageFolder) (w : World) :
  Path sf ∉ Path <$> committedFolders w →
  Path sf ∉ Path <$> pendingFolders w →
  Z.of_nat (size (uniqueFolders w)) ≤ maximumStorageFolders c →
  addLocked c sf w =
  (let* (err, sf) := assignIndex sf (uniqueFolders w) in
   match err with
   | Some _ => ret (err, sf)
   | None => createAndAnnounce c sf
   end) w.
Proof.
  intros Hc Hp Hsize. unfold addLocked at 1. unfold bind at 1. unfold getWorld.
  rewrite !bool_decide_eq_false_2 by done.
  destruct (Z.gtb_spec (Z.of_nat (size (uniqueFolders w))) (maximumStorageFolders c));
    [lia|reflexivity].
Qed.

Lemma addLocked_over_capacity (sf : storageFolder) (w : World) :
  Path sf ∉ Path <$> committedFolders w →
  Path sf ∉ Path <$> pendingFolders w →
  maximumStorageFolders c < Z.of_nat (size (uniqueFolders w)) →
  addLocked c sf w = (Some errMaxStorageFolders, sf, w).
Proof.
  intros Hc Hp Hsize. unfold addLocked, bind, getWorld, ret.
  rewrite !bool_decide_eq_false_2 by done.
  destruct (Z.gtb_spec (Z.of_nat (size (uniqueFolders w))) (maximumStorageFolders c));
    [reflexivity|lia].
Qed.

Lemma createAndAnnounce_ok (sf : storageFolder) (w : World) :
  noFaults w →
  let name := sectorHousingName c sf in
  let sf' := set_Denominator (set_file sf (Some name)) (totalSize c sf) in
  ∃ w', createAndAnnounce c sf w = (None, sf', w')
        ∧ storageFolders w' = storageFolders w
        ∧ uncommittedChanges w' = uncommittedChanges w ++ [pendingChange sf']
        ∧ walRecords w' = walRecords w ++ [pendingChange sf']
        ∧ files w' = <[name := File 0]> (files w)
        ∧ logLines w' = logLines w
        ∧ disrupt w' = disrupt w
        ∧ noFaults w'.
Proof.
  intros Hok name sf'. subst name sf'.
  destruct w as [regs unc wal fs log cs fl ent dis tg].
  unfold noFaults in *. simpl in Hok.
  unfold createAndAnnounce, createFile, appendChange, perform, bind, ret.
  next_fault Hok fl; simpl; [|next_fault Hok fl; simpl];
    (eexists; split; [reflexivity|]; simpl; split_and!; try done).
Qed.

Lemma wrap64_range (z : Z) : 0 ≤ wrap64 z < 18446744073709551616.
Proof. unfold wrap64. apply Z.mod_pos_bound. lia. Qed.

Lemma wrap64_small (z : Z) : 0 ≤ z < 18446744073709551616 → wrap64 z = z.
Proof. unfold wrap64. apply Z.mod_small. Qed.

Lemma wrap64_add_l (a b : Z) : wrap64 (wrap64 a + b) = wrap64 (a + b).
Proof. unfold wrap64. apply Zplus_mod_idemp_l. Qed.

Lemma writeChunks_ok (n : nat) :
  ∀ (sf : storageFolder) (w : World) (name : string) (len : Z),
    noFaults w →
    file sf = Some name →
    files w !! name = Some (File len) →
    0 ≤ atomicProgressNumerator sf < 18446744073709551616 →
    ∃ w', writeChunks n sf w
          = (None,
             set_Numerator sf
               (wrap64 (atomicProgressNumerator sf + Z.of_nat n * 4000000)),
             w')
          ∧ storageFolders w' = storageFolders w
          ∧ uncommittedChanges w' = uncommittedChanges w
          ∧ walRecords w' = walRecords w
          ∧ files w' = <[name := File (len + Z.of_nat n * 4000000)]> (files w)
          ∧ logLines w' = logLines w
          ∧ disrupt w' = disrupt w
          ∧ noFaults w'.
Proof.
  induction n as [|n IH]; intros sf w name len Hok Hfile Hlen Hnum.
  - exists w. simpl. split_and!; try done.
    + rewrite Z.add_0_r, wrap64_small by done. by destruct sf.
    + rewrite Z.add_0_r. symmetry. by apply insert_id.
  - cbn [writeChunks]. unfold bind at 1. rewrite Hfile.
    destruct w as [regs unc wal fs log cs fl ent dis tg].
    unfold noFaults in Hok. simpl in Hok, Hlen.
    unfold fileWrite, perform, bind, ret. simpl.
    assert (default None (head fl) = None ∧ Forall (λ o, o = None) (tail fl))
      as [-> Hok'].
    { next_fault Hok fl; simpl; done. }
    simpl. rewrite Hlen.
    edestruct (IH (set_Numerator sf (wrap64 (atomicProgressNumerator sf + 4000000)))
                 (set_files (mkWorld regs unc wal fs log (cs ++ [CallWrite name 4000000])
                               (tail fl) ent dis tg)
                    (<[name := File (len + 4000000)]> fs))
                 name (len + 4000000))
      as (w' & Hrun & Hregs & Hunc & Hwal & Hfs & Hlog & Hdis & Hok'');
      [done | done | by simpl; rewrite lookup_insert_eq | apply wrap64_range |].
    exists w'. simpl in *. rewrite Hrun. split_and!; try done.
    + f_equal. f_equal. destruct sf; simpl. f_equal.
      rewrite wrap64_add_l. f_equal. lia.
    + rewrite Hfs, insert_insert_eq. do 2 f_equal. lia.
Qed.

Lemma totalSize_range (sf : storageFolder) :
  0 ≤ totalSize c sf < 18446744073709551616.
Proof. apply wrap64_range. Qed.

Lemma allocate_ok (sf : storageFolder) (w : World) (name : string) (len : Z) :
  noFaults w →
  file sf = Some name →
  files w !! name = Some (File len) →
  0 ≤ atomicProgressNumerator sf < 18446744073709551616 →
  ∃ w', allocate c sf w
        = (false, None, None,
           set_Denominator
             (set_Numerator sf
                (wrap64 (atomicProgressNumerator sf
                         + totalSize c sf / 4000000 * 4000000)))
             (totalSize c sf),
           w')
        ∧ storageFolders w' = storageFolders w
        ∧ uncommittedChanges w' = uncommittedChanges w
        ∧ walRecords w' = walRecords w
        ∧ files w' = <[name := File (len + totalSize c sf)]> (files w)
        ∧ logLines w' = logLines w
        ∧ disrupt w' = disrupt w
        ∧ noFaults w'.
Proof.
  intros Hok Hfile Hlen Hnum.
  pose proof (totalSize_range sf) as Htotal.
  destruct (writeChunks_ok (Z.to_nat (totalSize c sf / 4000000)) sf w name len
              Hok Hfile Hlen Hnum)
    as (w1 & Hrun & Hregs & Hunc & Hwal & Hfs & Hlog & Hdis & Hok1).
  rewrite Z2Nat.id in Hrun, Hfs by (apply Z.div_pos; lia).
  unfold allocate, bind at 1. rewrite Hrun.
  repeat match goal with
         | |- context [totalSize c (set_Numerator sf ?v)] =>
             change (totalSize c (set_Numerator sf v)) with (totalSize c sf)
         end.
  cbn [file set_Numerator].
  rewrite Hfile.
  destruct w1 as [regs1 unc1 wal1 fs1 log1 cs1 fl1 ent1 dis1 tg1].
  unfold noFaults in *. simpl in Hregs, Hunc, Hwal, Hfs, Hlog, Hdis, Hok1.
  unfold fileWrite, fileSync, perform, bind, ret.
  assert (fs1 !! name = Some (File (len + totalSize c sf / 4000000 * 4000000)))
    as Hlen1 by (by rewrite Hfs, lookup_insert_eq).
  assert (len + totalSize c sf / 4000000 * 4000000 + totalSize c sf mod 4000000
          = len + totalSize c sf) as Hsum.
  { pose proof (Z.div_mod (totalSize c sf) 4000000). lia. }
  next_fault Hok1 fl1; simpl; rewrite Hlen1; simpl;
    [|next_fault Hok1 fl1; simpl];
    (eexists; split; [reflexivity|]; simpl; split_and!; try done;
     by rewrite Hfs, insert_insert_eq, Hsum).
Qed.

Lemma commitLocked_ok (sf : storageFolder) (w : World) :
  noFaults w →
  let sf' := set_Denominator (set_Numerator sf 0) 0 in
  ∃ w', commitLocked sf w = (None, sf', w')
        ∧ storageFolders w' = <[Index sf := sf']> (storageFolders w)
        ∧ uncommittedChanges w' = uncommittedChanges w ++ [committedChange sf']
        ∧ walRecords w' = walRecords w ++ [committedChange sf']
        ∧ files w' = files w
        ∧ logLines w' = logLines w
        ∧ disrupt w' = disrupt w
        ∧ noFaults w'.
Proof.
  intros Hok sf'. subst sf'.
  destruct w as [regs unc wal fs log cs fl ent dis tg].
  unfold noFaults in *. simpl in Hok.
  unfold commitLocked, appendChange, perform, bind, ret.
  next_fault Hok fl; simpl;
    (eexists; split; [reflexivity|]; simpl; split_and!; done).
Qed.


(** The first locked block when nothing stands in the way. *)
Lemma addLocked_ok (sf : storageFolder) (w : World) :
  Path sf ∉ Path <$> committedFolders w →
  Path sf ∉ Path <$> pendingFolders w →
  Z.of_nat (size (uniqueFolders w)) ≤ maximumStorageFolders c →
  (∃ i, 0 ≤ i < 65536 ∧ i ∉ uniqueFolders w) →
  noFaults w →
  ∃ index w1,
    let sf1 := set_Denominator
                 (set_file (set_Index sf index) (Some (sectorHousingName c sf)))
                 (totalSize c sf) in
    addLocked c sf w = (None, sf1, w1)
    ∧ 0 ≤ index < 65536
    ∧ (index ∉ uniqueFolders w)
    ∧ storageFolders w1 = storageFolders w
    ∧ uncommittedChanges w1 = uncommittedChanges w ++ [pendingChange sf1]
    ∧ walRecords w1 = walRecords w ++ [pendingChange sf1]
    ∧ files w1 = <[sectorHousingName c sf := File 0]> (files w)
    ∧ disrupt w1 = disrupt w
    ∧ noFaults w1.
Proof.
  intros Hc Hp Hsize Hfree Hok.
  rewrite addLocked_checked by done. unfold bind at 1.
  rewrite assignIndex_run.
  pose proof (wrap16_range (RandIntn 65536 w).1.1) as Hstart.
  pose proof (probe_finds_free _ _ Hstart Hfree) as Hprobe.
  destruct (probe probeCount (uniqueFolders w) 0 (wrap16 (RandIntn 65536 w).1.1))
    as [iterator index].
  destruct (Hprobe _ _ eq_refl) as (Hit & Hidx & Hnotin & _).
  cbn [fst snd].
  destruct (Z.eqb_spec iterator 65536) as [|_]; [lia|].
  destruct (afterEntropy_frame w) as (Hregs & Hunc & Hwal & Hfs & _ & Hfl & Hdis).
  destruct (createAndAnnounce_ok (set_Index sf index) (afterEntropy w))
    as (w1 & Hrun & Hregs1 & Hunc1 & Hwal1 & Hfs1 & _ & Hdis1 & Hok1).
  { unfold noFaults. by rewrite Hfl. }
  exists index, w1. cbn zeta.
  split; [exact Hrun|].
  split; [rewrite Hidx; apply wrap16_range|].
  split; [exact Hnotin|].
  split; [congruence|].
  split; [rewrite Hunc1, Hunc; reflexivity|].
  split; [rewrite Hwal1, Hwal; reflexivity|].
  split; [rewrite Hfs1, Hfs; reflexivity|].
  split; [congruence|exact Hok1].
Qed.

(** The state in which [managedAddStorageFolder] has written and synced the
    whole file. *)
Lemma allocated (sf : storageFolder) (w : World) :
  Path sf ∉ Path <$> committedFolders w →
  Path sf ∉ Path <$> pendingFolders w →
  Z.of_nat (size (uniqueFolders w)) ≤ maximumStorageFolders c →
  (∃ i, 0 ≤ i < 65536 ∧ i ∉ uniqueFolders w) →
  noFaults w →
  0 ≤ atomicProgressNumerator sf < 18446744073709551616 →
  ∃ index w1 w2,
    let name := sectorHousingName c sf in
    let sf1 := set_Denominator (set_file (set_Index sf index) (Some name))
                 (totalSize c sf) in
    let sf2 := set_Numerator sf1
                 (wrap64 (atomicProgressNumerator sf
                          + totalSize c sf / 4000000 * 4000000)) in
    addLocked c sf w = (None, sf1, w1)
    ∧ allocate c sf1 w1 = (false, None, None, sf2, w2)
    ∧ 0 ≤ index < 65536
    ∧ (index ∉ uniqueFolders w)
    ∧ storageFolders w2 = storageFolders w
    ∧ uncommittedChanges w2 = uncommittedChanges w ++ [pendingChange sf1]
    ∧ walRecords w2 = walRecords w ++ [pendingChange sf1]
    ∧ files w2 = <[name := File (totalSize c sf)]> (files w)
    ∧ disrupt w2 = disrupt w
    ∧ noFaults w2.
Proof.
  intros Hc Hp Hsize Hfree Hok Hnum.
  destruct (addLocked_ok sf w Hc Hp Hsize Hfree Hok)
    as (index & w1 & Hrun1 & Hidx & Hnotin & Hregs1 & Hunc1 & Hwal1 & Hfs1
        & Hdis1 & Hok1).
  cbn zeta in *.
  edestruct (allocate_ok
               (set_Denominator
                  (set_file (set_Index sf index) (Some (sectorHousingName c sf)))
                  (totalSize c sf))
               w1 (sectorHousingName c sf) 0)
    as (w2 & Hrun2 & Hregs2 & Hunc2 & Hwal2 & Hfs2 & _ & Hdis2 & Hok2);
    [done | reflexivity | by rewrite Hfs1, lookup_insert_eq | done |].
  exists index, w1, w2. cbn zeta.
  split; [exact Hrun1|].
  split; [etrans; [exact Hrun2|]; destruct sf; reflexivity|].
  split; [exact Hidx|].
  split; [exact Hnotin|].
  split; [congruence|].
  split; [congruence|].
  split; [congruence|].
  split; [rewrite Hfs2, Hfs1, insert_insert_eq; reflexivity|].
  split; [congruence|exact Hok2].
Qed.

End Phases.

(** ** Startup cleanup and replay *)

Section Cleanup.

Variable c : Constants.

Lemma cleanupOne_effects (sf : storageFolder) (w : World) :
  calls (cleanupOne c sf w).2 = calls w ++ cleanupCalls c sf
  ∧ faults (cleanupOne c sf w).2 = drop 2 (faults w)
  ∧ (∀ p, p ≠ sectorHousingName c sf →
          files (cleanupOne c sf w).2 !! p = files w !! p)
  ∧ ((cleanupOne c sf w).1 = None →
       walRecords (cleanupOne c sf w).2
       = walRecords w ++ [erroredChange (Index sf)])
  ∧ (∀ e, (cleanupOne c sf w).1 = Some e →
       walRecords (cleanupOne c sf w).2 = walRecords w
       ∧ ∃ r e' rest, faults w = r :: Some e' :: rest
           ∧ e = errExtended
                   "unable to close out unfinished storage folder addition" e').
Proof.
  destruct w as [regs unc wal fs log cs fl ent dis tg].
  unfold cleanupOne, cleanupCalls, osRemove, appendChange, logPrintln, perform,
    bind, ret.
  cbn [faults calls files walRecords fst snd].
  destruct fl as [|[e1|] [|[e2|] fl]]; cbn;
    try destruct (fs !! sectorHousingName c sf) eqn:Hlook; cbn;
    rewrite <- ?app_assoc;
    (split; [reflexivity|]);
    (split; [reflexivity|]);
    (split; [intros p Hp; try reflexivity; by rewrite lookup_delete_ne|]);
    (split; [first [discriminate | reflexivity]|]);
    intros e; first [discriminate | intros [= <-]];
    (split; [reflexivity|]); eexists _, _, _; split; reflexivity.
Qed.

Lemma cleanupOne_failed_append (sf : storageFolder) (w : World)
  (r : option error) (e : error) (rest : list (option error)) :
  faults w = r :: Some e :: rest →
  (cleanupOne c sf w).1
  = Some (errExtended "unable to close out unfinished storage folder addition" e).
Proof.
  intros Hfaults. destruct w as [regs unc wal fs log cs fl ent dis tg].
  simpl in Hfaults. subst fl.
  unfold cleanupOne, osRemove, appendChange, logPrintln, perform, bind, ret.
  cbn [faults calls files walRecords fst snd].
  destruct r; cbn; [reflexivity|].
  by destruct (fs !! sectorHousingName c sf).
Qed.

Lemma cleanupLoop_app (pre sfs : list storageFolder) :
  ∀ w, cleanupLoop c (pre ++ sfs) w
       = match cleanupLoop c pre w with
         | (None, w1) => cleanupLoop c sfs w1
         | (Some e, w1) => (Some e, w1)
         end.
Proof.
  induction pre as [|sf pre IH]; intros w; [reflexivity|].
  cbn [app cleanupLoop]. unfold bind.
  destruct (cleanupOne c sf w) as [[e|] w1]; [reflexivity|]. apply IH.
Qed.

(** A run of the loop that ends without error has handled every folder. *)
Lemma cleanupLoop_completed (sfs : list storageFolder) :
  ∀ w w1, cleanupLoop c sfs w = (None, w1) →
    calls w1 = calls w ++ (sfs ≫= cleanupCalls c)
    ∧ walRecords w1 = walRecords w ++ ((λ sf, erroredChange (Index sf)) <$> sfs)
    ∧ (∀ p, p ∉ sectorHousingName c <$> sfs → files w1 !! p = files w !! p).
Proof.
  induction sfs as [|sf sfs IH]; intros w w1 Hrun.
  - injection Hrun as <-. rewrite !app_nil_r. done.
  - cbn [cleanupLoop] in Hrun. unfold bind in Hrun.
    destruct (cleanupOne_effects sf w) as (Hcalls & _ & Hfiles & Hwal & _).
    destruct (cleanupOne c sf w) as [[e|] w2]; [discriminate Hrun|].
    cbn [fst snd] in *.
    destruct (IH w2 w1 Hrun) as (Hcalls1 & Hwal1 & Hfiles1).
    split_and!.
    + rewrite Hcalls1, Hcalls, <- app_assoc. reflexivity.
    + rewrite Hwal1, Hwal by done. rewrite <- app_assoc. reflexivity.
    + intros p Hp. rewrite fmap_cons, not_elem_of_cons in Hp.
      destruct Hp as [Hne Hp]. rewrite Hfiles1 by done. by apply Hfiles.
Qed.

End Cleanup.

(** ** [managedAddStorageFolder] and [AddStorageFolder] *)

Section Managed.

Variable c : Constants.

Lemma AddStorageFolder_valid (path : string) (size : Z) (w : World) :
  validRequest c path size w →
  AddStorageFolder c path size w =
  (let* (err, _) := managedAddStorageFolder c (newStorageFolder c path size) in
   match err with
   | Some _ =>
       let* _ := logPrintln "Call to AddStorageFolder has failed:" err in
       ret err
   | None => ret None
   end) w.
Proof.
  intros (Htg & Hsize & Hbounds & Hgran & Habs & Hdir).
  unfold AddStorageFolder. unfold bind at 1. unfold tgAdd. rewrite Htg.
  destruct (Z.gtb_spec (size / SectorSize c) (maximumSectorsPerStorageFolder c));
    [lia|].
  destruct (Z.ltb_spec (size / SectorSize c) (minimumSectorsPerStorageFolder c));
    [lia|].
  rewrite Hgran, Habs. cbn [Z.eqb negb].
  unfold bind at 1. unfold osStat. rewrite Hdir. reflexivity.
Qed.

(** The function's result is fixed by its [return] statement: what the
    deferred function computes does not reach the caller. *)
Lemma managedAdd_result (sf sf1 sf2 : storageFolder) (w w1 w2 : World)
  (result err : option error) :
  addLocked c sf w = (None, sf1, w1) →
  addBody c sf1 w1 = (result, err, sf2, w2) →
  managedAddStorageFolder c sf w
  = (result, sf2, (deferredRollback (sectorHousingName c sf) sf2 err w2).2).
Proof.
  intros Hlocked Hbody. unfold managedAddStorageFolder. unfold bind at 1.
  rewrite Hlocked. unfold bind at 1. rewrite Hbody. unfold bind, ret.
  by destruct (deferredRollback _ _ _ _).
Qed.

Lemma managedAdd_ok (sf : storageFolder) (w : World) :
  Path sf ∉ Path <$> committedFolders w →
  Path sf ∉ Path <$> pendingFolders w →
  Z.of_nat (size (uniqueFolders w)) ≤ maximumStorageFolders c →
  (∃ i, 0 ≤ i < 65536 ∧ i ∉ uniqueFolders w) →
  noFaults w →
  0 ≤ atomicProgressNumerator sf < 18446744073709551616 →
  disrupt w "incompleteAddStorageFolder" = false →
  ∃ index w',
    let name := sectorHousingName c sf in
    let sf' := mkStorageFolder index (Path sf) (Usage sf) (Some name) 0 0
                 (failedReads sf) in
    managedAddStorageFolder c sf w = (None, sf', w')
    ∧ 0 ≤ index < 65536
    ∧ (index ∉ uniqueFolders w)
    ∧ storageFolders w' = <[index := sf']> (storageFolders w)
    ∧ files w' = <[name := File (totalSize c sf)]> (files w)
    ∧ (∃ sf1, walRecords w'
              = walRecords w ++ [pendingChange sf1; committedChange sf']).
Proof.
  intros Hc Hp Hsize Hfree Hok Hnum Hdisrupt.
  destruct (allocated c sf w Hc Hp Hsize Hfree Hok Hnum)
    as (index & w1 & w2 & Hrun1 & Hrun2 & Hidx & Hnotin & Hregs2 & Hunc2
        & Hwal2 & Hfs2 & Hdis2 & Hok2).
  cbn zeta in *.
  lazymatch type of Hrun2 with
  | allocate c _ w1 = (_, _, _, ?sf2, _) =>
      destruct (commitLocked_ok sf2 w2 Hok2)
        as (w3 & Hrun3 & Hregs3 & Hunc3 & Hwal3 & Hfs3 & _ & _ & _)
  end.
  cbn zeta in Hrun3.
  exists index, w3. cbn zeta.
  lazymatch type of Hrun2 with
  | allocate c ?sf1 w1 = (_, _, _, ?sf2, _) =>
      assert (addBody c sf1 w1
              = (None, None, set_Denominator (set_Numerator sf2 0) 0, w3))
        as Hbody
  end.
  { unfold addBody, bind. rewrite Hrun2.
    unfold getWorld. rewrite Hdis2, Hdisrupt, Hrun3. reflexivity. }
  rewrite (managedAdd_result sf _ _ w w1 w3 None None Hrun1 Hbody).
  split; [reflexivity|].
  split; [exact Hidx|].
  split; [exact Hnotin|].
  split; [rewrite Hregs3, Hregs2; reflexivity|].
  split; [congruence|].
  eexists. rewrite Hwal3, Hwal2, <- app_assoc. reflexivity.
Qed.

(** The fault-injection hook fires after the file has been written. *)
Lemma managedAdd_disrupt (sf : storageFolder) (w : World) :
  Path sf ∉ Path <$> committedFolders w →
  Path sf ∉ Path <$> pendingFolders w →
  Z.of_nat (size (uniqueFolders w)) ≤ maximumStorageFolders c →
  (∃ i, 0 ≤ i < 65536 ∧ i ∉ uniqueFolders w) →
  noFaults w →
  0 ≤ atomicProgressNumerator sf < 18446744073709551616 →
  disrupt w "incompleteAddStorageFolder" = true →
  ∃ index w',
    let name := sectorHousingName c sf in
    let sf1 := set_Denominator (set_file (set_Index sf index) (Some name))
                 (totalSize c sf) in
    let sf2 := set_Numerator sf1
                 (wrap64 (atomicProgressNumerator sf
                          + totalSize c sf / 4000000 * 4000000)) in
    managedAddStorageFolder c sf w = (None, sf2, w')
    ∧ storageFolders w' = storageFolders w
    ∧ walRecords w' = walRecords w ++ [pendingChange sf1]
    ∧ files w' = <[name := File (totalSize c sf)]> (files w).
Proof.
  intros Hc Hp Hsize Hfree Hok Hnum Hdisrupt.
  destruct (allocated c sf w Hc Hp Hsize Hfree Hok Hnum)
    as (index & w1 & w2 & Hrun1 & Hrun2 & Hidx & Hnotin & Hregs2 & Hunc2
        & Hwal2 & Hfs2 & Hdis2 & Hok2).
  cbn zeta in *.
  exists index, w2. cbn zeta.
  lazymatch type of Hrun2 with
  | allocate c ?sf1 w1 = (_, _, _, ?sf2, _) =>
      assert (addBody c sf1 w1 = (None, None, sf2, w2)) as Hbody
  end.
  { unfold addBody, bind. rewrite Hrun2.
    unfold getWorld. rewrite Hdis2, Hdisrupt. reflexivity. }
  rewrite (managedAdd_result sf _ _ w w1 w2 None None Hrun1 Hbody).
  done.
Qed.

(** With every index in use the request is refused, whatever the maximum. *)
Lemma addLocked_no_free_index (sf : storageFolder) (w : World) :
  Path sf ∉ Path <$> committedFolders w →
  Path sf ∉ Path <$> pendingFolders w →
  (∀ i, 0 ≤ i < 65536 → i ∈ uniqueFolders w) →
  (addLocked c sf w).1 = (Some errMaxStorageFolders, sf)
  ∧ walRecords (addLocked c sf w).2 = walRecords w
  ∧ files (addLocked c sf w).2 = files w
  ∧ storageFolders (addLocked c sf w).2 = storageFolders w.
Proof.
  intros Hc Hp Hall.
  destruct (Z_lt_le_dec (maximumStorageFolders c)
              (Z.of_nat (size (uniqueFolders w)))) as [Hover|Hle].
  - by rewrite addLocked_over_capacity.
  - assert (addLocked c sf w
            = (Some errMaxStorageFolders, sf,
               (logCritical fullMessage (afterEntropy w)).2)) as ->.
    { rewrite addLocked_checked by done. unfold bind at 1.
      rewrite assignIndex_run.
      by rewrite (proj2 (probe_exhausted _ _ (wrap16_range _)) Hall). }
    destruct (afterEntropy_frame w) as (Hregs & _ & Hwal & Hfs & _).
    cbn -[fullMessage]. done.
Qed.

End Managed.

Lemma fullWorld_all_used (i : Z) :
  0 ≤ i < 65536 → i ∈ uniqueFolders fullWorld.
Proof.
  intros Hi. apply elem_of_uniqueFolders.
  exists (numbered i). split; [|reflexivity].
  left. unfold committedFolders. apply list_elem_of_fmap.
  exists (i, numbered i). split; [reflexivity|].
  apply elem_of_map_to_list. cbn [storageFolders fullWorld]. unfold fullRegistry.
  apply elem_of_list_to_map_1.
  - rewrite <- list_fmap_compose. apply NoDup_fmap_2; [|apply NoDup_seqZ].
    intros x y Hxy. exact Hxy.
  - apply list_elem_of_fmap. exists i. split; [reflexivity|].
    apply elem_of_seqZ. lia.
Qed.


Lemma numbered_path (i : Z) : Path (numbered i) ≠ "/data".
Proof. unfold numbered. cbn [Path]. intros H. discriminate H. Qed.

Lemma list_to_map_paths (l : list (Z * storageFolder)) (p : string) :
  Forall (λ kv, Path kv.2 ≠ p) l →
  p ∉ Path <$> (map_to_list (list_to_map l : gmap Z storageFolder)).*2.
Proof.
  intros Hall Hin. apply list_elem_of_fmap in Hin as (f & Hpath & Hin).
  apply list_elem_of_fmap in Hin as ([k f'] & -> & Hin).
  apply elem_of_map_to_list, elem_of_list_to_map_2 in Hin.
  rewrite Forall_forall in Hall. by apply (Hall _ Hin).
Qed.

Lemma fullWorld_no_such_path :
  "/data" ∉ Path <$> committedFolders fullWorld.
Proof.
  apply list_to_map_paths, Forall_fmap, Forall_forall.
  intros i _. apply numbered_path.
Qed.

(** C6: the scan starts at the value drawn from the entropy source with the
    bound 65536: a value of the range from 0 to 65535, which is an outcome of
    the source unchanged whenever that outcome is in this range, so that the
    start is distributed as the source is.  From there the indices are
    visited in increasing order with wrap-around.  An index is in use when a
    folder of the registry or a folder of a pending addition among the
    uncommitted changes carries it.  If some index is free, the index
    assigned is the first free one from the start, so it differs from the
    index of every registered folder and of every folder of a pending
    addition, and the full-set condition is not reported; if no index is
    free, and only then, the condition is logged as critical and the
    capacity error is returned. *)
Theorem assignIndex_first_free (sf : storageFolder) (w : World) :
  let used (i : Z) : Prop :=
    (∃ k f, storageFolders w !! k = Some f ∧ Index f = i)
    ∨ (∃ uc f, uc ∈ uncommittedChanges w
               ∧ f ∈ UnfinishedStorageFolderAdditions uc ∧ Index f = i) in
  let start := (RandIntn 65536 w).1.1 in
  let r := assignIndex sf (uniqueFolders w) w in
  0 ≤ start < 65536
  ∧ (∀ v e rest, entropy w = (v, e) :: rest → 0 ≤ v < 65536 → start = v)
  ∧ ((∃ i, 0 ≤ i < 65536 ∧ ¬ used i) →
       r.1.1 = None
       ∧ (∃ k, 0 ≤ k < 65536 ∧ Index r.1.2 = wrap16 (start + k)
               ∧ (∀ j, 0 ≤ j < k → used (wrap16 (start + j))))
       ∧ (∀ k f, storageFolders w !! k = Some f → Index f ≠ Index r.1.2)
       ∧ (∀ uc f, uc ∈ uncommittedChanges w →
                  f ∈ UnfinishedStorageFolderAdditions uc →
                  Index f ≠ Index r.1.2)
       ∧ Critical fullMessage ∉ drop (length (logLines w)) (logLines r.2))
  ∧ ((∀ i, 0 ≤ i < 65536 → used i) →
       r.1.1 = Some errMaxStorageFolders
       ∧ last (logLines r.2) = Some (Critical fullMessage)).
Proof.
  intros used start r. subst r start.
  pose proof (RandIntn_range w) as Hstart.
  split; [exact Hstart|].
  split; [intros v e rest; apply RandIntn_outcome|].
  assert (Hused_iff : ∀ i, used i ↔ i ∈ uniqueFolders w)
    by (intros i; symmetry; apply uniqueFolders_spec).
  rewrite assignIndex_run, (wrap16_small _ Hstart).
  destruct (afterEntropy_logLines w) as (extra & Hlog & Hextra).
  pose proof (probe_exhausted (uniqueFolders w) _ Hstart) as Hfull.
  pose proof (probe_finds_free (uniqueFolders w) _ Hstart) as Hfree.
  destruct (probe probeCount (uniqueFolders w) 0 (RandIntn 65536 w).1.1)
    as [iterator index].
  cbn [fst snd] in *. split.
  - intros (i & Hi & Hfree_i).
    assert (Hex : ∃ i, 0 ≤ i < 65536 ∧ i ∉ uniqueFolders w).
    { exists i. split; [exact Hi|]. by rewrite <- Hused_iff. }
    specialize (Hfree Hex iterator index eq_refl)
      as (Hit & Hidx & Hnotin & Hvisited).
    destruct (Z.eqb_spec iterator 65536) as [|_]; [lia|]. cbn [fst snd].
    split; [done|]. split.
    { exists iterator. split; [exact Hit|]. split; [exact Hidx|].
      intros j Hj. apply Hused_iff, Hvisited, Hj. }
    split.
    { intros k f Hf Heq. apply Hnotin, Hused_iff. left. by exists k, f. }
    split.
    { intros uc f Huc Hf Heq. apply Hnotin, Hused_iff. right. by exists uc, f. }
    by rewrite Hlog, drop_app_length.
  - intros Hall.
    assert (Hall' : ∀ i, 0 ≤ i < 65536 → i ∈ uniqueFolders w)
      by (intros i Hi; apply Hused_iff, Hall, Hi).
    apply Hfull in Hall'. subst iterator. cbn -[fullMessage].
    split; [done|]. apply last_snoc.
Qed.

Lemma assignIndex_first_free_example :
  let sf := newStorageFolder smallConstants "/data" 262144 in
  (let r := assignIndex sf (uniqueFolders pendingWorld) pendingWorld in
   r.1.1 = None
   ∧ Index r.1.2 = 10
   ∧ (∀ k f, storageFolders pendingWorld !! k = Some f → Index f ≠ Index r.1.2)
   ∧ (∀ uc f, uc ∈ uncommittedChanges pendingWorld →
              f ∈ UnfinishedStorageFolderAdditions uc →
              Index f ≠ Index r.1.2))
  ∧ (let r := assignIndex sf (uniqueFolders fullWorld) fullWorld in
     r.1.1 = Some errMaxStorageFolders
     ∧ last (logLines r.2) = Some (Critical fullMessage)).
Proof.
  intros sf.
  destruct (assignIndex_first_free sf pendingWorld) as (_ & _ & Hfree & _).
  destruct (assignIndex_first_free sf fullWorld) as (_ & _ & _ & Hfull).
  split.
  - destruct Hfree as (Herr & _ & Hregistry & Hpending & _).
    { exists 10. split; [lia|]. rewrite <- uniqueFolders_spec.
      apply (bool_decide_unpack _). by vm_compute. }
    split; [exact Herr|]. split; [by vm_compute|].
    split; [exact Hregistry|exact Hpending].
  - apply Hfull. intros i Hi. apply uniqueFolders_spec, fullWorld_all_used, Hi.
Defined.

(** ** Claims about adding a storage folder *)

Lemma newStorageFolder_totalSize (c : Constants) (path : string) (size : Z) :
  wfConstants c →
  0 ≤ size < 18446744073709551616 →
  size / SectorSize c ≤ maximumSectorsPerStorageFolder c →
  (size / SectorSize c) mod storageFolderGranularity c = 0 →
  Z.of_nat (length (Usage (newStorageFolder c path size))) = size / SectorSize c / 64
  ∧ totalSize c (newStorageFolder c path size)
    = size / SectorSize c * (SectorSize c + sectorMetadataDiskSize c).
Proof.
  intros (Hss & Hmeta & Hgran & Hfit) Hsize Hmax Hmod.
  set (sectors := size / SectorSize c) in *.
  assert (0 ≤ sectors ≤ size) as Hsectors.
  { subst sectors. destruct (decide (SectorSize c = 0)) as [->|Hne].
    - rewrite Z.div_0_r. lia.
    - split; [apply Z.div_pos; lia|]. apply Z.div_le_upper_bound; nia. }
  assert ((64 | sectors)) as Hdiv.
  { destruct (decide (storageFolderGranularity c = 0)) as [Heq|Hne].
    - rewrite Heq, Z.mod_0_r in Hmod. rewrite Hmod. apply Z.divide_0_r.
    - apply Z.mod_divide in Hmod; [|done]. by etrans. }
  assert (sectors / 64 * 64 = sectors) as Hwords.
  { destruct Hdiv as [k ->]. by rewrite Z.div_mul. }
  assert (Z.of_nat (length (Usage (newStorageFolder c path size))) = sectors / 64)
    as Hlen.
  { simpl. rewrite length_replicate, Z2Nat.id; [done|]. apply Z.div_pos; lia. }
  split; [exact Hlen|].
  unfold totalSize, sectorLookupSize, sectorHousingSize, numSectors.
  rewrite Hlen, Hwords.
  rewrite (wrap64_small sectors) by lia.
  rewrite (wrap64_small (sectors * sectorMetadataDiskSize c)) by nia.
  rewrite (wrap64_small (sectors * SectorSize c)) by nia.
  rewrite wrap64_small by nia. lia.
Qed.

(** C1 (as amended): a request of valid size for an absolute path that names
    an existing directory, not yet registered or pending, succeeds provided
    that the contract manager has not been stopped, the number of distinct
    folder indices does not exceed the maximum, some index is free, no
    collaborator call fails and the fault-injection hook does not fire.  The
    folder is then in the registry under its index, with an all-zero usage
    bitmap of [sectorCount / 64] words; no other folder has that index; and
    the sector file holds [sectorCount * (SectorSize + sectorMetadataDiskSize)]
    bytes. *)
Theorem AddStorageFolder_adds_folder (c : Constants) (path : string) (size : Z)
  (w : World) :
  wfConstants c →
  validRequest c path size w →
  path ∉ Path <$> committedFolders w →
  path ∉ Path <$> pendingFolders w →
  Z.of_nat (stdpp.base.size (uniqueFolders w)) ≤ maximumStorageFolders c →
  (∃ i, 0 ≤ i < 65536 ∧ i ∉ uniqueFolders w) →
  noFaults w →
  disrupt w "incompleteAddStorageFolder" = false →
  ∃ index sf' w',
    AddStorageFolder c path size w = (None, w')
    ∧ storageFolders w' = <[index := sf']> (storageFolders w)
    ∧ Index sf' = index
    ∧ Path sf' = path
    ∧ Z.of_nat (length (Usage sf')) = size / SectorSize c / 64
    ∧ Forall (λ word, word = 0) (Usage sf')
    ∧ (∀ k f, storageFolders w' !! k = Some f → k ≠ index → Index f ≠ index)
    ∧ (∀ f, f ∈ pendingFolders w → Index f ≠ index)
    ∧ files w' !! Join path (sectorFile c)
      = Some (File (size / SectorSize c
                    * (SectorSize c + sectorMetadataDiskSize c))).
Proof.
  intros Hwf Hvalid Hc Hp Hcount Hfree Hok Hdisrupt.
  pose proof Hvalid as (_ & Hsize & [_ Hmax] & Hmod & _ & _).
  destruct (newStorageFolder_totalSize c path size Hwf Hsize Hmax Hmod)
    as [Hlen Htotal].
  destruct (managedAdd_ok c (newStorageFolder c path size) w)
    as (index & w' & Hrun & Hidx & Hnotin & Hregs & Hfs & _); try done.
  cbn zeta in *.
  exists index, (mkStorageFolder index path
                   (Usage (newStorageFolder c path size))
                   (Some (Join path (sectorFile c))) 0 0 0), w'.
  rewrite AddStorageFolder_valid by done. unfold bind. rewrite Hrun.
  split; [reflexivity|].
  split; [exact Hregs|].
  split; [reflexivity|].
  split; [reflexivity|].
  split; [exact Hlen|].
  split; [by apply Forall_replicate|].
  split; [|split].
  - intros k f Hlook Hne Heq. rewrite Hregs, lookup_insert_ne in Hlook by done.
    apply Hnotin, elem_of_uniqueFolders. exists f. split; [|done]. left.
    unfold committedFolders. apply list_elem_of_fmap. exists (k, f).
    split; [done|]. by apply elem_of_map_to_list.
  - intros f Hf Heq. apply Hnotin, elem_of_uniqueFolders. eauto.
  - rewrite Hfs. unfold sectorHousingName. cbn [Path newStorageFolder].
    by rewrite lookup_insert_eq, Htotal.
Qed.

Lemma AddStorageFolder_adds_folder_example :
  ∃ index sf' w',
    AddStorageFolder largeConstants "/data" 268435456 freshWorld = (None, w')
    ∧ storageFolders w' = <[index := sf']> (storageFolders freshWorld)
    ∧ Index sf' = index
    ∧ Path sf' = "/data"
    ∧ Z.of_nat (length (Usage sf')) = 268435456 / SectorSize largeConstants / 64
    ∧ Forall (λ word, word = 0) (Usage sf')
    ∧ (∀ k f, storageFolders w' !! k = Some f → k ≠ index → Index f ≠ index)
    ∧ (∀ f, f ∈ pendingFolders freshWorld → Index f ≠ index)
    ∧ files w' !! Join "/data" (sectorFile largeConstants)
      = Some (File (268435456 / SectorSize largeConstants
                    * (SectorSize largeConstants
                       + sectorMetadataDiskSize largeConstants))).
Proof.
  apply (AddStorageFolder_adds_folder largeConstants "/data" 268435456 freshWorld).
  - unfold wfConstants. simpl. split_and!; try lia. by exists 1.
  - unfold validRequest. simpl. split_and!; try done; try lia.
  - apply (bool_decide_unpack _). by vm_compute.
  - apply (bool_decide_unpack _). by vm_compute.
  - vm_compute. discriminate.
  - exists 0. split; [lia|]. apply (bool_decide_unpack _). by vm_compute.
  - constructor.
  - reflexivity.
Defined.

(** C1 (as stated) fails: with all 65536 indices in use, a valid request
    for a fresh directory is refused with the capacity error, although no
    collaborator fails. *)
Lemma AddStorageFolder_refused_when_full :
  validRequest largeConstants "/data" 268435456 fullWorld
  ∧ ("/data" ∉ Path <$> committedFolders fullWorld)
  ∧ ("/data" ∉ Path <$> pendingFolders fullWorld)
  ∧ noFaults fullWorld
  ∧ (AddStorageFolder largeConstants "/data" 268435456 fullWorld).1
    = Some errMaxStorageFolders.
Proof.
  assert (validRequest largeConstants "/data" 268435456 fullWorld) as Hvalid.
  { unfold validRequest. simpl. split_and!; try done; lia. }
  assert ("/data" ∉ Path <$> pendingFolders fullWorld) as Hp.
  { apply not_elem_of_nil. }
  split_and!; [done | apply fullWorld_no_such_path | done | constructor |].
  rewrite AddStorageFolder_valid by done. unfold bind at 1.
  unfold managedAddStorageFolder, bind.
  destruct (addLocked_no_free_index largeConstants
              (newStorageFolder largeConstants "/data" 268435456) fullWorld
              fullWorld_no_such_path Hp fullWorld_all_used) as (Hres & _).
  destruct (addLocked _ _ _) as [[err sf] w1]. cbn [fst] in Hres.
  injection Hres as -> ->. reflexivity.
Qed.

(** C5: when the requested path is the path of a folder of the registry, or
    of a folder of a pending-addition record among the uncommitted changes,
    [managedAddStorageFolder] returns the duplicate-folder error and leaves
    the world as it found it: no record appended, no file created, no call
    made to a collaborator, the registry unchanged. *)
Theorem managedAdd_duplicate_path (c : Constants) (sf : storageFolder) (w : World) :
  (∃ k csf, storageFolders w !! k = Some csf ∧ Path csf = Path sf)
  ∨ (∃ uc usfa, uc ∈ uncommittedChanges w
                ∧ usfa ∈ UnfinishedStorageFolderAdditions uc
                ∧ Path usfa = Path sf) →
  managedAddStorageFolder c sf w = (Some errRepeatFolder, sf, w).
Proof.
  intros Hdup.
  unfold managedAddStorageFolder, bind. rewrite addLocked_duplicate; [done|].
  destruct Hdup as [(k & csf & Hlook & Heq)|(uc & usfa & Huc & Husfa & Heq)].
  - left. rewrite <- Heq. apply list_elem_of_fmap_2.
    unfold committedFolders. apply list_elem_of_fmap. exists (k, csf).
    split; [done|]. by apply elem_of_map_to_list.
  - right. rewrite <- Heq. apply list_elem_of_fmap_2.
    unfold pendingFolders. apply list_elem_of_bind. eauto.
Qed.

Lemma managedAdd_duplicate_path_example :
  managedAddStorageFolder smallConstants
    (newStorageFolder smallConstants "/f3" 262144) atCapacityWorld
  = (Some errRepeatFolder, newStorageFolder smallConstants "/f3" 262144,
     atCapacityWorld).
Proof.
  apply (managedAdd_duplicate_path smallConstants
           (newStorageFolder smallConstants "/f3" 262144) atCapacityWorld).
  left. exists 3, (registered 3 "/f3").2. split; reflexivity.
Defined.

(** C3: the code departs from the claim.  With as many folders registered as
    the maximum allows, one more folder is accepted: the call succeeds, the
    registry grows beyond the maximum, records are appended and the file is
    created. *)
Theorem AddStorageFolder_accepts_at_capacity :
  Z.of_nat (size (uniqueFolders atCapacityWorld))
  = maximumStorageFolders smallConstants
  ∧ (AddStorageFolder smallConstants "/data" 262144 atCapacityWorld).1 = None
  ∧ size (storageFolders
            (AddStorageFolder smallConstants "/data" 262144 atCapacityWorld).2)
    = 9%nat
  ∧ length (walRecords
              (AddStorageFolder smallConstants "/data" 262144 atCapacityWorld).2)
    = 2%nat
  ∧ files (AddStorageFolder smallConstants "/data" 262144 atCapacityWorld).2
    !! "/data/siahostdata.dat" = Some (File 263040).
Proof. split_and!; by vm_compute. Qed.

(** The same for every configuration: the capacity check lets a request pass
    when the count equals the maximum. *)
Lemma addLocked_at_capacity_proceeds (c : Constants) (sf : storageFolder)
  (w : World) :
  Path sf ∉ Path <$> committedFolders w →
  Path sf ∉ Path <$> pendingFolders w →
  Z.of_nat (size (uniqueFolders w)) = maximumStorageFolders c →
  (∃ i, 0 ≤ i < 65536 ∧ i ∉ uniqueFolders w) →
  noFaults w →
  (addLocked c sf w).1.1 = None
  ∧ ∃ sf1, walRecords (addLocked c sf w).2 = walRecords w ++ [pendingChange sf1].
Proof.
  intros Hc Hp Hcount Hfree Hok.
  destruct (addLocked_ok c sf w) as (index & w1 & Hrun & _ & _ & _ & _ & Hwal & _);
    [done | done | lia | done | done |].
  cbn zeta in *. rewrite Hrun. eauto.
Qed.

(** C4: the code departs from the claim.  When the last chunk has been
    written and synced, the numerator is the size of the full chunks only:
    for a folder of 64 sectors of 4 MiB it is 268000000 while the denominator
    is 268436352. *)
Theorem allocate_numerator_short_of_denominator :
  let locked := addLocked largeConstants
                  (newStorageFolder largeConstants "/data" 268435456) freshWorld in
  let done := allocate largeConstants locked.1.2 locked.2 in
  locked.1.1 = None
  ∧ done.1.1 = (false, None, None)
  ∧ files done.2 !! "/data/siahostdata.dat" = Some (File 268436352)
  ∧ atomicProgressNumerator done.1.2 = 268000000
  ∧ atomicProgressDenominator done.1.2 = 268436352.
Proof. cbn zeta. split_and!; by vm_compute. Qed.

(** In general the numerator ends at the total size rounded down to a
    multiple of the chunk size. *)
Lemma allocate_numerator (c : Constants) (sf : storageFolder) (w : World)
  (name : string) (len : Z) :
  noFaults w →
  file sf = Some name →
  files w !! name = Some (File len) →
  atomicProgressNumerator sf = 0 →
  atomicProgressNumerator (allocate c sf w).1.2
  = totalSize c sf - totalSize c sf mod 4000000.
Proof.
  intros Hok Hfile Hlen Hnum.
  destruct (allocate_ok c sf w name len Hok Hfile Hlen) as (w' & -> & _);
    [rewrite Hnum; lia|].
  cbn [fst snd set_Denominator set_Numerator atomicProgressNumerator].
  pose proof (totalSize_range c sf).
  pose proof (Z.div_mod (totalSize c sf) 4000000).
  pose proof (Z.mod_pos_bound (totalSize c sf) 4000000).
  rewrite Hnum, wrap64_small; lia.
Qed.

(** The deferred function does compose the errors, in its local variable. *)
Lemma deferredRollback_composes (name : string) (sf : storageFolder)
  (e e1 e2 : error) (w : World) (rest : list (option error)) :
  faults w = Some e1 :: Some e2 :: rest →
  (deferredRollback name sf (Some e) w).1
  = Some (errComposed [errComposed [e; e1]; e2])
  ∧ calls (deferredRollback name sf (Some e) w).2
    = calls w ++ [CallAppendChange (erroredChange (Index sf)); CallRemove name].
Proof.
  intros Hfaults. destruct w as [regs unc wal fs log cs fl ent dis tg].
  simpl in Hfaults. subst fl.
  unfold deferredRollback, appendChange, osRemove, perform, bind, ret. simpl.
  by rewrite <- app_assoc.
Qed.

(** C7: the code departs from the claim.  The sync of the new file fails and
    the rollback runs: it appends the errored-addition record and attempts
    to remove the file, and the removal fails.  The error returned is the
    sync error alone; the removal error is not part of it, and the file
    stays. *)
Theorem managedAdd_drops_rollback_error :
  let r := managedAddStorageFolder smallConstants
             (newStorageFolder smallConstants "/data" 262144) syncAndRemoveFail in
  r.1.1 = Some (errExtended "could not syncronize allocated storage folder"
                  (errEnv "sync: input/output error"))
  ∧ drop 4 (calls r.2)
    = [CallAppendChange (erroredChange 7); CallRemove "/data/siahostdata.dat"]
  ∧ (∀ e, r.1.1 = Some e → ¬ mentions (errEnv "remove: permission denied") e)
  ∧ files r.2 !! "/data/siahostdata.dat" = Some (File 263040).
Proof.
  cbn zeta. split_and!; try by vm_compute.
  intros e He. vm_compute in He. injection He as <-.
  simpl. intros [H|[H|H]]; [discriminate H..|exact H].
Qed.

(** C10: when the hook ["incompleteAddStorageFolder"] fires after the file
    has been written and synced, [managedAddStorageFolder] returns [nil], and
    so does [AddStorageFolder] for the request that led there; the folder is
    not in the registry, the only record appended is the pending-addition
    record, and the progress counters keep the values of the allocation. *)
Theorem managedAdd_disrupted_returns_nil (c : Constants) (sf : storageFolder)
  (w : World) :
  Path sf ∉ Path <$> committedFolders w →
  Path sf ∉ Path <$> pendingFolders w →
  Z.of_nat (size (uniqueFolders w)) ≤ maximumStorageFolders c →
  (∃ i, 0 ≤ i < 65536 ∧ i ∉ uniqueFolders w) →
  noFaults w →
  atomicProgressNumerator sf = 0 →
  disrupt w "incompleteAddStorageFolder" = true →
  ∃ sf' w',
    managedAddStorageFolder c sf w = (None, sf', w')
    ∧ files w' !! sectorHousingName c sf = Some (File (totalSize c sf))
    ∧ storageFolders w' = storageFolders w
    ∧ (∃ sf1, walRecords w' = walRecords w ++ [pendingChange sf1])
    ∧ atomicProgressNumerator sf' = totalSize c sf - totalSize c sf mod 4000000
    ∧ atomicProgressDenominator sf' = totalSize c sf
    ∧ (∀ path size, validRequest c path size w →
         sf = newStorageFolder c path size →
         (AddStorageFolder c path size w).1 = None
         ∧ storageFolders (AddStorageFolder c path size w).2 = storageFolders w).
Proof.
  intros Hc Hp Hcount Hfree Hok Hnum Hdisrupt.
  destruct (managedAdd_disrupt c sf w) as (index & w' & Hrun & Hregs & Hwal & Hfs);
    [done..|rewrite Hnum; lia|done|].
  cbn zeta in *. eexists _, w'.
  split; [exact Hrun|].
  split; [by rewrite Hfs, lookup_insert_eq|].
  split; [exact Hregs|].
  split; [eauto|].
  split.
  { cbn [set_Numerator atomicProgressNumerator].
    pose proof (totalSize_range c sf).
    pose proof (Z.div_mod (totalSize c sf) 4000000).
    pose proof (Z.mod_pos_bound (totalSize c sf) 4000000).
    rewrite Hnum, wrap64_small; lia. }
  split; [reflexivity|].
  intros path size Hvalid ->.
  rewrite AddStorageFolder_valid by done. unfold bind. rewrite Hrun.
  split; [reflexivity|exact Hregs].
Qed.

Lemma managedAdd_disrupted_example :
  ∃ sf' w',
    managedAddStorageFolder largeConstants
      (newStorageFolder largeConstants "/data" 268435456) disruptedWorld
    = (None, sf', w')
    ∧ files w' !! "/data/siahostdata.dat" = Some (File 268436352)
    ∧ storageFolders w' = ∅
    ∧ (∃ sf1, walRecords w' = [pendingChange sf1])
    ∧ atomicProgressNumerator sf' = 268000000
    ∧ atomicProgressDenominator sf' = 268436352
    ∧ (AddStorageFolder largeConstants "/data" 268435456 disruptedWorld).1 = None.
Proof.
  destruct (managedAdd_disrupted_returns_nil largeConstants
              (newStorageFolder largeConstants "/data" 268435456) disruptedWorld)
    as (sf' & w' & Hrun & Hfs & Hregs & Hwal & Hnum & Hden & Hadd).
  - apply (bool_decide_unpack _). by vm_compute.
  - apply (bool_decide_unpack _). by vm_compute.
  - vm_compute. discriminate.
  - exists 0. split; [lia|]. apply (bool_decide_unpack _). by vm_compute.
  - constructor.
  - reflexivity.
  - reflexivity.
  - exists sf', w'. repeat (split; [assumption|]).
    apply (Hadd "/data" 268435456); [|reflexivity].
    unfold validRequest. simpl. split_and!; try done; lia.
Defined.

(** C9: when the append of the errored-addition record fails for one of the
    unfinished folders, [cleanupUnfinishedStorageFolderAdditions] returns
    that error (with its description) at once.  The folders that come after
    it are not handled: no removal is attempted for them, no errored record
    is appended for them, and every file other than the sector files of the
    folders handled so far is as it was. *)
Theorem cleanup_stops_at_failed_append (c : Constants) (scs : list stateChange)
  (pre rest : list storageFolder) (sf : storageFolder) (w w1 : World)
  (r : option error) (e : error) (fs : list (option error)) :
  findUnfinishedStorageFolderAdditions scs = pre ++ sf :: rest →
  cleanupLoop c pre w = (None, w1) →
  faults w1 = r :: Some e :: fs →
  let res := cleanupUnfinishedStorageFolderAdditions c scs w in
  res.1 = Some (errExtended
                  "unable to close out unfinished storage folder addition" e)
  ∧ calls res.2 = calls w ++ ((pre ++ [sf]) ≫= cleanupCalls c)
  ∧ walRecords res.2
    = walRecords w ++ ((λ sf, erroredChange (Index sf)) <$> pre)
  ∧ (∀ p, p ∉ sectorHousingName c <$> (pre ++ [sf]) →
          files res.2 !! p = files w !! p)
  ∧ res = cleanupLoop c (pre ++ [sf]) w.
Proof.
  intros Hfind Hpre Hfaults res. subst res.
  unfold cleanupUnfinishedStorageFolderAdditions. rewrite Hfind.
  rewrite !cleanupLoop_app, Hpre. cbn [cleanupLoop]. unfold bind.
  pose proof (cleanupOne_failed_append c sf w1 r e fs Hfaults) as Hfail.
  destruct (cleanupOne_effects c sf w1) as (Hcalls & _ & Hfiles & _ & Hwal).
  destruct (cleanupLoop_completed c pre w w1 Hpre) as (Hcalls1 & Hwal1 & Hfiles1).
  destruct (cleanupOne c sf w1) as [[e'|] w2]; [|discriminate Hfail].
  unfold ret. cbv beta iota. cbn [fst snd] in *. injection Hfail as ->.
  destruct (Hwal _ eq_refl) as [Hwal2 _].
  split_and!.
  - reflexivity.
  - rewrite Hcalls, Hcalls1, bind_app, <- app_assoc.
    f_equal; cbn; by rewrite ?app_nil_r.
  - by rewrite Hwal2, Hwal1.
  - intros p Hp. rewrite fmap_app, not_elem_of_app in Hp.
    destruct Hp as [Hp1 Hp2]. rewrite fmap_cons, not_elem_of_cons in Hp2.
    rewrite Hfiles by (destruct Hp2; done). by apply Hfiles1.
  - reflexivity.
Qed.

Lemma cleanup_stops_at_failed_append_example :
  let res := cleanupUnfinishedStorageFolderAdditions smallConstants
               threeUnfinished secondAppendFails in
  res.1 = Some (errExtended
                  "unable to close out unfinished storage folder addition"
                  (errEnv "write: no space left on device"))
  ∧ calls res.2
    = [CallRemove "/c/siahostdata.dat"; CallAppendChange (erroredChange 3);
       CallRemove "/b/siahostdata.dat"; CallAppendChange (erroredChange 2)]
  ∧ walRecords res.2 = [erroredChange 3]
  ∧ files res.2 !! "/a/siahostdata.dat" = Some (File 263040).
Proof.
  destruct (cleanup_stops_at_failed_append smallConstants threeUnfinished
              [exampleFolder 3 "/c"] [exampleFolder 1 "/a"] (exampleFolder 2 "/b")
              secondAppendFails
              (cleanupLoop smallConstants [exampleFolder 3 "/c"] secondAppendFails).2
              None (errEnv "write: no space left on device") [])
    as (Herr & Hcalls & Hwal & Hfiles & _);
    [by vm_compute | by vm_compute | by vm_compute |].
  cbn zeta. split_and!.
  - exact Herr.
  - exact Hcalls.
  - exact Hwal.
  - rewrite Hfiles; [by vm_compute|].
    apply (bool_decide_unpack _). by vm_compute.
Defined.

(** C8: [commitAddStorageFolder] has no error result and installs the folder
    in the registry at its index whether or not the sector file can be
    reopened.  When reopening fails, the failure is logged, [failedReads] is
    incremented (as a [uint64]) and the folder installed is the one so
    marked, without a file handle. *)
Theorem commitAdd_installs_degraded_folder (c : Constants) (sf : storageFolder)
  (w : World) :
  let res := commitAddStorageFolder c sf w in
  storageFolders res.2 = <[Index sf := res.1]> (storageFolders w)
  ∧ Index res.1 = Index sf
  ∧ Path res.1 = Path sf
  ∧ (∀ e, (osOpenFile (sectorHousingName c sf) w).1.2 = Some e →
       failedReads res.1 = wrap64 (failedReads sf + 1)
       ∧ file res.1 = None
       ∧ logLines res.2
         = logLines w ++ [Println "Difficulties opening storage folder:" (Some e)]
       ∧ walRecords res.2 = walRecords w).
Proof.
  destruct w as [regs unc wal fs log cs fl ent dis tg].
  unfold commitAddStorageFolder, osOpenFile, logPrintln, perform, bind, ret.
  cbn [faults calls files walRecords fst snd].
  destruct fl as [|[e1|] fl]; cbn;
    try destruct (fs !! sectorHousingName c sf) as [[|len]|] eqn:Hlook; cbn;
    (split_and!; [reflexivity..|]);
    intros e; try discriminate; intros [= <-]; done.
Qed.

Lemma commitAdd_installs_degraded_folder_example :
  let res := commitAddStorageFolder smallConstants (exampleFolder 5 "/data")
               missingFileWorld in
  storageFolders res.2 !! 5 = Some res.1
  ∧ failedReads res.1 = 1
  ∧ logLines res.2
    = [Println "Difficulties opening storage folder:"
         (Some (errNotExist "/data/siahostdata.dat"))].
Proof.
  destruct (commitAdd_installs_degraded_folder smallConstants
              (exampleFolder 5 "/data") missingFileWorld)
    as (Hregs & _ & _ & Hfail).
  destruct (Hfail (errNotExist "/data/siahostdata.dat") eq_refl)
    as (Hreads & _ & Hlog & _).
  cbn zeta. split_and!.
  - rewrite Hregs. apply lookup_insert_eq.
  - exact Hreads.
  - exact Hlog.
Defined.

(** * Further properties of the code *)

(** ** The phases under an explicit fault schedule *)

Section Schedules.

Variable c : Constants.

(** Creation of the file fails: nothing else happens. *)
Lemma createAndAnnounce_create_fails (sf : storageFolder) (w : World)
  (e : error) (rest : list (option error)) :
  faults w = Some e :: rest →
  ∃ w', createAndAnnounce c sf w
        = (Some (errExtended "could not create storage folder file" e),
           set_file sf None, w')
        ∧ storageFolders w' = storageFolders w
        ∧ uncommittedChanges w' = uncommittedChanges w
        ∧ walRecords w' = walRecords w
        ∧ files w' = files w
        ∧ logLines w' = logLines w
        ∧ calls w' = calls w ++ [CallCreateFile (sectorHousingName c sf)]
        ∧ faults w' = rest.
Proof.
  intros Hfaults. destruct w as [regs unc wal fs log cs fl ent dis tg].
  simpl in Hfaults. subst fl.
  unfold createAndAnnounce, createFile, perform, bind, ret. cbn.
  eexists. split; [reflexivity|]. cbn. done.
Qed.

(** The file is created; [r] is the outcome of the append of the
    pending-addition record, which the code does not look at. *)
Lemma createAndAnnounce_run (sf : storageFolder) (w : World)
  (r : option error) (rest : list (option error)) :
  faults w = None :: r :: rest →
  let name := sectorHousingName c sf in
  let sf' := set_Denominator (set_file sf (Some name)) (totalSize c sf) in
  ∃ w', createAndAnnounce c sf w = (None, sf', w')
        ∧ storageFolders w' = storageFolders w
        ∧ walRecords w'
          = walRecords w ++ (if r is None then [pendingChange sf'] else [])
        ∧ files w' = <[name := File 0]> (files w)
        ∧ disrupt w' = disrupt w
        ∧ faults w' = rest.
Proof.
  intros Hfaults name sf'. subst name sf'.
  destruct w as [regs unc wal fs log cs fl ent dis tg].
  simpl in Hfaults. subst fl.
  unfold createAndAnnounce, createFile, appendChange, perform, bind, ret.
  destruct r; cbn; (eexists; split; [reflexivity|]); cbn;
    rewrite ?app_nil_r; done.
Qed.

Lemma writeChunks_run (n : nat) :
  ∀ (sf : storageFolder) (w : World) (name : string) (len : Z)
    (rest : list (option error)),
    faults w = replicate n None ++ rest →
    file sf = Some name →
    files w !! name = Some (File len) →
    0 ≤ atomicProgressNumerator sf < 18446744073709551616 →
    ∃ w', writeChunks n sf w
          = (None,
             set_Numerator sf
               (wrap64 (atomicProgressNumerator sf + Z.of_nat n * 4000000)),
             w')
          ∧ storageFolders w' = storageFolders w
          ∧ walRecords w' = walRecords w
          ∧ files w' = <[name := File (len + Z.of_nat n * 4000000)]> (files w)
          ∧ disrupt w' = disrupt w
          ∧ faults w' = rest.
Proof.
  induction n as [|n IH]; intros sf w name len rest Hfaults Hfile Hlen Hnum.
  - exists w. simpl. split_and!; try done.
    + rewrite Z.add_0_r, wrap64_small by done. by destruct sf.
    + rewrite Z.add_0_r. symmetry. by apply insert_id.
  - cbn [writeChunks]. unfold bind at 1. rewrite Hfile.
    destruct w as [regs unc wal fs log cs fl ent dis tg].
    simpl in Hfaults, Hlen. subst fl.
    unfold fileWrite, perform, bind, ret. cbn. rewrite Hlen.
    edestruct (IH (set_Numerator sf (wrap64 (atomicProgressNumerator sf + 4000000)))
                 (set_files (mkWorld regs unc wal fs log (cs ++ [CallWrite name 4000000])
                               (replicate n None ++ rest) ent dis tg)
                    (<[name := File (len + 4000000)]> fs))
                 name (len + 4000000) rest)
      as (w' & Hrun & Hregs & Hwal & Hfs & Hdis & Hfl);
      [done | done | by simpl; rewrite lookup_insert_eq | apply wrap64_range |].
    exists w'. simpl in *. rewrite Hrun. split_and!; try done.
    + f_equal. f_equal. destruct sf; simpl. f_equal.
      rewrite wrap64_add_l. f_equal. lia.
    + rewrite Hfs, insert_insert_eq. do 2 f_equal. lia.
Qed.

(** The write of chunk number [k] fails, after [k] chunks that were written. *)
Lemma writeChunks_fail (n : nat) :
  ∀ (k : nat) (sf : storageFolder) (w : World) (name : string) (len : Z)
    (e : error) (rest : list (option error)),
    (k < n)%nat →
    faults w = replicate k None ++ Some e :: rest →
    file sf = Some name →
    files w !! name = Some (File len) →
    0 ≤ atomicProgressNumerator sf < 18446744073709551616 →
    ∃ w', writeChunks n sf w
          = (Some e,
             set_Numerator sf
               (wrap64 (atomicProgressNumerator sf + Z.of_nat k * 4000000)),
             w')
          ∧ storageFolders w' = storageFolders w
          ∧ walRecords w' = walRecords w
          ∧ files w' = <[name := File (len + Z.of_nat k * 4000000)]> (files w)
          ∧ disrupt w' = disrupt w
          ∧ faults w' = rest.
Proof.
  induction n as [|n IH]; intros k sf w name len e rest Hk Hfaults Hfile Hlen Hnum;
    [lia|].
  cbn [writeChunks]. unfold bind at 1. rewrite Hfile.
  destruct w as [regs unc wal fs log cs fl ent dis tg].
  simpl in Hfaults, Hlen. subst fl.
  unfold fileWrite, perform, bind, ret.
  destruct k as [|k]; cbn.
  - rewrite !Z.add_0_r, wrap64_small by done.
    replace (set_Numerator sf (atomicProgressNumerator sf)) with sf
      by (by destruct sf).
    eexists. split; [reflexivity|]. cbn. split_and!; try done.
    symmetry. by apply insert_id.
  - rewrite Hlen.
    edestruct (IH k (set_Numerator sf (wrap64 (atomicProgressNumerator sf + 4000000)))
                 (set_files (mkWorld regs unc wal fs log (cs ++ [CallWrite name 4000000])
                               (replicate k None ++ Some e :: rest) ent dis tg)
                    (<[name := File (len + 4000000)]> fs))
                 name (len + 4000000) e rest)
      as (w' & Hrun & Hregs & Hwal & Hfs & Hdis & Hfl);
      [lia | done | done | by simpl; rewrite lookup_insert_eq | apply wrap64_range |].
    exists w'. simpl in *. rewrite Hrun. split_and!; try done.
    + f_equal. f_equal. destruct sf; simpl. f_equal.
      rewrite wrap64_add_l. f_equal. lia.
    + rewrite Hfs, insert_insert_eq. do 2 f_equal. lia.
Qed.


Lemma allocate_run (sf : storageFolder) (w : World) (name : string) (len : Z)
  (rest : list (option error)) :
  faults w
  = replicate (Z.to_nat (totalSize c sf / 4000000) + 2) None ++ rest →
  file sf = Some name →
  files w !! name = Some (File len) →
  0 ≤ atomicProgressNumerator sf < 18446744073709551616 →
  ∃ w', allocate c sf w
        = (false, None, None,
           set_Denominator
             (set_Numerator sf
                (wrap64 (atomicProgressNumerator sf
                         + totalSize c sf / 4000000 * 4000000)))
             (totalSize c sf),
           w')
        ∧ storageFolders w' = storageFolders w
        ∧ walRecords w' = walRecords w
        ∧ files w' = <[name := File (len + totalSize c sf)]> (files w)
        ∧ disrupt w' = disrupt w
        ∧ faults w' = rest.
Proof.
  intros Hfaults Hfile Hlen Hnum.
  pose proof (totalSize_range c sf) as Htotal.
  rewrite replicate_add, <- app_assoc in Hfaults.
  destruct (writeChunks_run (Z.to_nat (totalSize c sf / 4000000)) sf w name len
              _ Hfaults Hfile Hlen Hnum)
    as (w1 & Hrun & Hregs & Hwal & Hfs & Hdis & Hfl).
  rewrite Z2Nat.id in Hrun, Hfs by (apply Z.div_pos; lia).
  unfold allocate, bind at 1. rewrite Hrun.
  repeat match goal with
         | |- context [totalSize c (set_Numerator sf ?v)] =>
             change (totalSize c (set_Numerator sf v)) with (totalSize c sf)
         end.
  cbn [file set_Numerator]. rewrite Hfile.
  destruct w1 as [regs1 unc1 wal1 fs1 log1 cs1 fl1 ent1 dis1 tg1].
  simpl in Hregs, Hwal, Hfs, Hdis, Hfl. subst fl1.
  unfold fileWrite, fileSync, perform, bind, ret.
  assert (fs1 !! name = Some (File (len + totalSize c sf / 4000000 * 4000000)))
    as Hlen1 by (by rewrite Hfs, lookup_insert_eq).
  assert (len + totalSize c sf / 4000000 * 4000000 + totalSize c sf mod 4000000
          = len + totalSize c sf) as Hsum.
  { pose proof (Z.div_mod (totalSize c sf) 4000000). lia. }
  cbn. rewrite Hlen1. cbn.
  eexists. split; [reflexivity|]. cbn. split_and!; try done.
  by rewrite Hfs, insert_insert_eq, Hsum.
Qed.

(** Write number [k] fails: a full chunk when [k] is less than the number of
    full chunks, the final write of the remainder otherwise. *)
Lemma allocate_write_fails (k : nat) (sf : storageFolder) (w : World)
  (name : string) (len : Z) (e : error) (rest : list (option error)) :
  Z.of_nat k ≤ totalSize c sf / 4000000 →
  faults w = replicate k None ++ Some e :: rest →
  file sf = Some name →
  files w !! name = Some (File len) →
  0 ≤ atomicProgressNumerator sf < 18446744073709551616 →
  ∃ w', allocate c sf w
        = (true, Some (errExtended "could not allocate storage folder" e),
           Some e,
           set_Numerator sf
             (wrap64 (atomicProgressNumerator sf + Z.of_nat k * 4000000)),
           w')
        ∧ storageFolders w' = storageFolders w
        ∧ walRecords w' = walRecords w
        ∧ files w' = <[name := File (len + Z.of_nat k * 4000000)]> (files w)
        ∧ disrupt w' = disrupt w
        ∧ faults w' = rest.
Proof.
  intros Hk Hfaults Hfile Hlen Hnum.
  pose proof (totalSize_range c sf) as Htotal.
  unfold allocate, bind at 1.
  destruct (decide (k < Z.to_nat (totalSize c sf / 4000000))%nat) as [Hlt|Hge].
  - destruct (writeChunks_fail (Z.to_nat (totalSize c sf / 4000000)) k sf w
                name len e rest Hlt Hfaults Hfile Hlen Hnum)
      as (w1 & Hrun & Hrest).
    rewrite Hrun. cbn. exists w1. done.
  - assert (Z.to_nat (totalSize c sf / 4000000) = k) as Hn by lia.
    destruct (writeChunks_run (Z.to_nat (totalSize c sf / 4000000)) sf w name len
                (Some e :: rest))
      as (w1 & Hrun & Hregs & Hwal & Hfs & Hdis & Hfl); try done.
    { by rewrite Hn. }
    rewrite Hrun, Hn. cbn [file set_Numerator]. rewrite Hfile.
    destruct w1 as [regs1 unc1 wal1 fs1 log1 cs1 fl1 ent1 dis1 tg1].
    simpl in Hregs, Hwal, Hfs, Hdis, Hfl. subst fl1.
    unfold fileWrite, perform, bind, ret. cbn.
    eexists. split; [reflexivity|]. cbn. rewrite Hn in Hfs. done.
Qed.

Lemma allocate_sync_fails (sf : storageFolder) (w : World) (name : string)
  (len : Z) (e : error) (rest : list (option error)) :
  faults w
  = replicate (Z.to_nat (totalSize c sf / 4000000) + 1) None ++ Some e :: rest →
  file sf = Some name →
  files w !! name = Some (File len) →
  0 ≤ atomicProgressNumerator sf < 18446744073709551616 →
  ∃ w', allocate c sf w
        = (true,
           Some (errExtended "could not syncronize allocated storage folder" e),
           Some e,
           set_Numerator sf
             (wrap64 (atomicProgressNumerator sf
                      + totalSize c sf / 4000000 * 4000000)),
           w')
        ∧ storageFolders w' = storageFolders w
        ∧ walRecords w' = walRecords w
        ∧ files w' = <[name := File (len + totalSize c sf)]> (files w)
        ∧ disrupt w' = disrupt w
        ∧ faults w' = rest.
Proof.
  intros Hfaults Hfile Hlen Hnum.
  pose proof (totalSize_range c sf) as Htotal.
  rewrite replicate_add, <- app_assoc in Hfaults.
  destruct (writeChunks_run (Z.to_nat (totalSize c sf / 4000000)) sf w name len
              _ Hfaults Hfile Hlen Hnum)
    as (w1 & Hrun & Hregs & Hwal & Hfs & Hdis & Hfl).
  rewrite Z2Nat.id in Hrun, Hfs by (apply Z.div_pos; lia).
  unfold allocate, bind at 1. rewrite Hrun.
  repeat match goal with
         | |- context [totalSize c (set_Numerator sf ?v)] =>
             change (totalSize c (set_Numerator sf v)) with (totalSize c sf)
         end.
  cbn [file set_Numerator]. rewrite Hfile.
  destruct w1 as [regs1 unc1 wal1 fs1 log1 cs1 fl1 ent1 dis1 tg1].
  simpl in Hregs, Hwal, Hfs, Hdis, Hfl. subst fl1.
  unfold fileWrite, fileSync, perform, bind, ret.
  assert (fs1 !! name = Some (File (len + totalSize c sf / 4000000 * 4000000)))
    as Hlen1 by (by rewrite Hfs, lookup_insert_eq).
  assert (len + totalSize c sf / 4000000 * 4000000 + totalSize c sf mod 4000000
          = len + totalSize c sf) as Hsum.
  { pose proof (Z.div_mod (totalSize c sf) 4000000). lia. }
  cbn. rewrite Hlen1. cbn.
  eexists. split; [reflexivity|]. cbn. split_and!; try done.
  by rewrite Hfs, insert_insert_eq, Hsum.
Qed.

(** The second locked block; [r] is the outcome of the append. *)
Lemma commitLocked_run (sf : storageFolder) (w : World) (r : option error)
  (rest : list (option error)) :
  faults w = r :: rest →
  let sf' := set_Denominator (set_Numerator sf 0) 0 in
  ∃ w', commitLocked sf w
        = (ExtendErr "storage folder commitment assignment failed" r, sf', w')
        ∧ storageFolders w' = <[Index sf := sf']> (storageFolders w)
        ∧ walRecords w'
          = walRecords w ++ (if r is None then [committedChange sf'] else [])
        ∧ files w' = files w
        ∧ faults w' = rest.
Proof.
  intros Hfaults sf'. subst sf'.
  destruct w as [regs unc wal fs log cs fl ent dis tg].
  simpl in Hfaults. subst fl.
  unfold commitLocked, appendChange, perform, bind, ret.
  destruct r; cbn; (eexists; split; [reflexivity|]); cbn;
    rewrite ?app_nil_r; done.
Qed.

(** The deferred function after a failure; [r1] is the outcome of the append
    of the errored-addition record, [r2] that of the removal of the file. *)
Lemma deferredRollback_run (name : string) (sf : storageFolder) (e : error)
  (w : World) (r1 r2 : option error) (rest : list (option error)) :
  faults w = r1 :: r2 :: rest →
  is_Some (files w !! name) →
  let w' := (deferredRollback name sf (Some e) w).2 in
  storageFolders w' = storageFolders w
  ∧ walRecords w'
    = walRecords w ++ (if r1 is None then [erroredChange (Index sf)] else [])
  ∧ files w' = (if r2 is None then delete name (files w) else files w)
  ∧ calls w'
    = calls w ++ [CallAppendChange (erroredChange (Index sf)); CallRemove name]
  ∧ faults w' = rest.
Proof.
  intros Hfaults [n Hn]. destruct w as [regs unc wal fs log cs fl ent dis tg].
  simpl in Hfaults, Hn. subst fl.
  unfold deferredRollback, appendChange, osRemove, perform, bind, ret.
  destruct r1, r2; cbn; rewrite ?Hn; cbn; rewrite ?app_nil_r, <- ?app_assoc; done.
Qed.

(** The first locked block when the checks pass and the file is created. *)
Lemma addLocked_run (sf : storageFolder) (w : World) (r : option error)
  (rest : list (option error)) :
  Path sf ∉ Path <$> committedFolders w →
  Path sf ∉ Path <$> pendingFolders w →
  Z.of_nat (size (uniqueFolders w)) ≤ maximumStorageFolders c →
  (∃ i, 0 ≤ i < 65536 ∧ i ∉ uniqueFolders w) →
  faults w = None :: r :: rest →
  ∃ index w1,
    let sf1 := set_Denominator
                 (set_file (set_Index sf index) (Some (sectorHousingName c sf)))
                 (totalSize c sf) in
    addLocked c sf w = (None, sf1, w1)
    ∧ 0 ≤ index < 65536
    ∧ (index ∉ uniqueFolders w)
    ∧ storageFolders w1 = storageFolders w
    ∧ walRecords w1
      = walRecords w ++ (if r is None then [pendingChange sf1] else [])
    ∧ files w1 = <[sectorHousingName c sf := File 0]> (files w)
    ∧ disrupt w1 = disrupt w
    ∧ faults w1 = rest.
Proof.
  intros Hc Hp Hsize Hfree Hfaults.
  rewrite addLocked_checked by done. unfold bind at 1.
  rewrite assignIndex_run.
  pose proof (wrap16_range (RandIntn 65536 w).1.1) as Hstart.
  pose proof (probe_finds_free _ _ Hstart Hfree) as Hprobe.
  destruct (probe probeCount (uniqueFolders w) 0 (wrap16 (RandIntn 65536 w).1.1))
    as [iterator index].
  destruct (Hprobe _ _ eq_refl) as (Hit & Hidx & Hnotin & _).
  cbn [fst snd].
  destruct (Z.eqb_spec iterator 65536) as [|_]; [lia|].
  destruct (afterEntropy_frame w) as (Hregs & Hunc & Hwal & Hfs & _ & Hfl & Hdis).
  destruct (createAndAnnounce_run (set_Index sf index) (afterEntropy w) r rest)
    as (w1 & Hrun & Hregs1 & Hwal1 & Hfs1 & Hdis1 & Hfl1).
  { by rewrite Hfl. }
  exists index, w1. cbn zeta.
  split; [exact Hrun|].
  split; [rewrite Hidx; apply wrap16_range|].
  split; [exact Hnotin|].
  split; [congruence|].
  split; [rewrite Hwal1, Hwal; reflexivity|].
  split; [rewrite Hfs1, Hfs; reflexivity|].
  split; [congruence|exact Hfl1].
Qed.

End Schedules.

(** ** The phases under any fault schedule *)

Section AnySchedule.

Variable c : Constants.

Lemma createAndAnnounce_any (sf : storageFolder) (w : World) :
  storageFolders (createAndAnnounce c sf w).2 = storageFolders w
  ∧ Index (createAndAnnounce c sf w).1.2 = Index sf
  ∧ Path (createAndAnnounce c sf w).1.2 = Path sf
  ∧ Usage (createAndAnnounce c sf w).1.2 = Usage sf
  ∧ failedReads (createAndAnnounce c sf w).1.2 = failedReads sf.
Proof.
  destruct w as [regs unc wal fs log cs fl ent dis tg].
  unfold createAndAnnounce, createFile, appendChange, perform, bind, ret.
  destruct fl as [|[e1|] [|[e2|] fl]]; cbn; done.
Qed.

Lemma fileWrite_registry (f : option string) (n : Z) (w : World) :
  storageFolders (fileWrite f n w).2 = storageFolders w.
Proof.
  unfold fileWrite, perform, bind, ret. destruct f as [name|]; [|done].
  destruct w as [regs unc wal fs log cs fl ent dis tg].
  destruct fl as [|[e1|] fl]; cbn; try destruct (fs !! name) as [[|len]|]; done.
Qed.

Lemma fileSync_registry (f : option string) (w : World) :
  storageFolders (fileSync f w).2 = storageFolders w.
Proof. unfold fileSync, perform, ret. by destruct f. Qed.

Lemma writeChunks_any (n : nat) :
  ∀ (sf : storageFolder) (w : World),
    0 ≤ atomicProgressNumerator sf < 18446744073709551616 →
    storageFolders (writeChunks n sf w).2 = storageFolders w
    ∧ Index (writeChunks n sf w).1.2 = Index sf
    ∧ Path (writeChunks n sf w).1.2 = Path sf
    ∧ Usage (writeChunks n sf w).1.2 = Usage sf
    ∧ failedReads (writeChunks n sf w).1.2 = failedReads sf
    ∧ file (writeChunks n sf w).1.2 = file sf
    ∧ atomicProgressDenominator (writeChunks n sf w).1.2
      = atomicProgressDenominator sf
    ∧ ∃ j : nat, (j ≤ n)%nat
        ∧ atomicProgressNumerator (writeChunks n sf w).1.2
          = wrap64 (atomicProgressNumerator sf + Z.of_nat j * 4000000).
Proof.
  induction n as [|n IH]; intros sf w Hnum.
  - cbn. split_and!; try done. exists 0%nat. split; [lia|].
    by rewrite Z.add_0_r, wrap64_small.
  - cbn [writeChunks]. unfold bind.
    pose proof (fileWrite_registry (file sf) 4000000 w) as Hregs.
    destruct (fileWrite (file sf) 4000000 w) as [[e|] w1]; cbn [fst snd] in *.
    + cbn. split_and!; try done.
      exists 0%nat. split; [lia|]. by rewrite Z.add_0_r, wrap64_small.
    + destruct (IH (set_Numerator sf (wrap64 (atomicProgressNumerator sf + 4000000)))
                  w1 (wrap64_range _))
        as (Hregs' & Hidx & Hpath & Husage & Hreads & Hfile & Hden & j & Hj & Hnum').
      split_and!; try done; try congruence.
      exists (S j). split; [lia|]. rewrite Hnum'. cbn [set_Numerator atomicProgressNumerator].
      rewrite wrap64_add_l. f_equal. lia.
Qed.

(** Allocation never touches the registry or the identity of the folder,
    and the numerator it leaves counts whole chunks only. *)
Lemma allocate_any (sf : storageFolder) (w : World) :
  0 ≤ atomicProgressNumerator sf < 18446744073709551616 →
  storageFolders (allocate c sf w).2 = storageFolders w
  ∧ Index (allocate c sf w).1.2 = Index sf
  ∧ Path (allocate c sf w).1.2 = Path sf
  ∧ Usage (allocate c sf w).1.2 = Usage sf
  ∧ failedReads (allocate c sf w).1.2 = failedReads sf
  ∧ file (allocate c sf w).1.2 = file sf
  ∧ (atomicProgressDenominator (allocate c sf w).1.2
     = atomicProgressDenominator sf
     ∨ atomicProgressDenominator (allocate c sf w).1.2 = totalSize c sf)
  ∧ ∃ j : nat, Z.of_nat j ≤ totalSize c sf / 4000000
      ∧ atomicProgressNumerator (allocate c sf w).1.2
        = wrap64 (atomicProgressNumerator sf + Z.of_nat j * 4000000).
Proof.
  intros Hnum. pose proof (totalSize_range c sf) as Htotal.
  destruct (writeChunks_any (Z.to_nat (totalSize c sf / 4000000)) sf w Hnum)
    as (Hregs & Hidx & Hpath & Husage & Hreads & Hfile & Hden & j & Hj & Hnum').
  assert (Z.of_nat j ≤ totalSize c sf / 4000000) as Hj'.
  { pose proof (Z.div_pos (totalSize c sf) 4000000). lia. }
  unfold allocate, bind.
  destruct (writeChunks _ sf w) as [[[e|] sf1] w1]; cbn [fst snd] in *.
  - cbn. split_and!; try done; eauto.
  - pose proof (fileWrite_registry (file sf1) (totalSize c sf mod 4000000) w1)
      as Hregs1.
    destruct (fileWrite (file sf1) _ w1) as [[e|] w2]; cbn [fst snd] in *.
    + cbn. split_and!; try done; try congruence; eauto.
    + pose proof (fileSync_registry (file sf1) w2) as Hregs2.
      destruct (fileSync (file sf1) w2) as [[e|] w3]; cbn [fst snd] in *;
        cbn; (split_and!; try done; try congruence; eauto).
      right. unfold totalSize, sectorLookupSize, sectorHousingSize, numSectors.
      by rewrite Husage.
Qed.

Lemma commitLocked_any (sf : storageFolder) (w : World) :
  (commitLocked sf w).1.2 = set_Denominator (set_Numerator sf 0) 0
  ∧ storageFolders (commitLocked sf w).2
    = <[Index sf := set_Denominator (set_Numerator sf 0) 0]> (storageFolders w).
Proof.
  destruct w as [regs unc wal fs log cs fl ent dis tg].
  unfold commitLocked, appendChange, perform, bind, ret.
  destruct fl as [|[e1|] fl]; cbn; done.
Qed.

Lemma deferredRollback_any (name : string) (sf : storageFolder)
  (err : option error) (w : World) :
  storageFolders (deferredRollback name sf err w).2 = storageFolders w.
Proof.
  destruct w as [regs unc wal fs log cs fl ent dis tg].
  unfold deferredRollback, appendChange, osRemove, perform, bind, ret.
  destruct err; [|done].
  destruct fl as [|[e1|] [|[e2|] fl]]; cbn; try destruct (fs !! name); done.
Qed.

(** The first locked block under any schedule: the registry is not touched,
    and a block that ends without error has picked an unused index for a
    path that is not registered. *)
Lemma addLocked_any (sf : storageFolder) (w : World) :
  storageFolders (addLocked c sf w).2 = storageFolders w
  ∧ Path (addLocked c sf w).1.2 = Path sf
  ∧ Usage (addLocked c sf w).1.2 = Usage sf
  ∧ failedReads (addLocked c sf w).1.2 = failedReads sf
  ∧ atomicProgressNumerator (addLocked c sf w).1.2 = atomicProgressNumerator sf
  ∧ ((addLocked c sf w).1.1 = None →
       (Index (addLocked c sf w).1.2 ∉ uniqueFolders w)
       ∧ 0 ≤ Index (addLocked c sf w).1.2 < 65536
       ∧ (Path sf ∉ Path <$> committedFolders w)
       ∧ (Path sf ∉ Path <$> pendingFolders w)).
Proof.
  destruct (decide (Path sf ∈ Path <$> committedFolders w)) as [Hc|Hc].
  { rewrite addLocked_duplicate by (by left). cbn. split_and!; done. }
  destruct (decide (Path sf ∈ Path <$> pendingFolders w)) as [Hp|Hp].
  { rewrite addLocked_duplicate by (by right). cbn. split_and!; done. }
  destruct (Z_lt_le_dec (maximumStorageFolders c)
              (Z.of_nat (size (uniqueFolders w)))) as [Hover|Hle'].
  { rewrite addLocked_over_capacity by done. cbn. split_and!; done. }
  rewrite addLocked_checked by done.
  unfold bind. rewrite assignIndex_run.
  pose proof (wrap16_range (RandIntn 65536 w).1.1) as Hstart.
  destruct (probe_spec (uniqueFolders w) probeCount 0 _ Hstart)
    as (Hle & Heq & _ & Hfree).
  rewrite probeCount_eq in Hle, Hfree.
  destruct (probe probeCount (uniqueFolders w) 0 (wrap16 (RandIntn 65536 w).1.1))
    as [iterator index]. cbn [fst snd] in *.
  destruct (afterEntropy_frame w) as (Hregs & _).
  destruct (Z.eqb_spec iterator 65536) as [Hit|Hit].
  { cbn -[fullMessage]. split_and!; done. }
  destruct (createAndAnnounce_any (set_Index sf index) (afterEntropy w))
    as (Hregs1 & Hidx1 & Hpath1 & Husage1 & Hreads1).
  assert (atomicProgressNumerator (createAndAnnounce c (set_Index sf index)
                                     (afterEntropy w)).1.2
          = atomicProgressNumerator sf) as Hnum1.
  { destruct (afterEntropy w) as [regs unc wal fs log cs fl ent dis tg].
    unfold createAndAnnounce, createFile, appendChange, perform, bind, ret.
    destruct fl as [|[e1|] [|[e2|] fl]]; cbn; done. }
  split_and!; try done; try congruence.
  intros _. rewrite Hidx1. cbn [Index set_Index].
  split; [apply Hfree; lia|].
  split; [rewrite Heq; apply wrap16_range|].
  split; assumption.
Qed.

Lemma managedAdd_locked_error (sf sf1 : storageFolder) (w w1 : World)
  (e : error) :
  addLocked c sf w = (Some e, sf1, w1) →
  managedAddStorageFolder c sf w = (Some e, sf1, w1).
Proof.
  intros Hlocked. unfold managedAddStorageFolder, bind. by rewrite Hlocked.
Qed.

(** The part after the [defer] statement: the registry is left alone, or the
    folder is inserted with both counters at zero. *)
Lemma addBody_any (sf : storageFolder) (w : World) :
  0 ≤ atomicProgressNumerator sf < 18446744073709551616 →
  Index (addBody c sf w).1.2 = Index sf
  ∧ Path (addBody c sf w).1.2 = Path sf
  ∧ Usage (addBody c sf w).1.2 = Usage sf
  ∧ failedReads (addBody c sf w).1.2 = failedReads sf
  ∧ (storageFolders (addBody c sf w).2 = storageFolders w
     ∨ (storageFolders (addBody c sf w).2
        = <[Index sf := (addBody c sf w).1.2]> (storageFolders w)
        ∧ atomicProgressNumerator (addBody c sf w).1.2 = 0
        ∧ atomicProgressDenominator (addBody c sf w).1.2 = 0)).
Proof.
  intros Hnum.
  destruct (allocate_any sf w Hnum)
    as (Hregs2 & Hidx2 & Hpath2 & Husage2 & Hreads2 & _).
  unfold addBody, bind, getWorld.
  destruct (allocate c sf w) as [[[[returned result] err] sf2] w2].
  cbn [fst snd] in *.
  destruct returned; [cbn; split_and!; try done; by left|].
  destruct (disrupt w2 "incompleteAddStorageFolder");
    [cbn; split_and!; try done; by left|].
  destruct (commitLocked_any sf2 w2) as (Hsf3 & Hregs3).
  destruct (commitLocked sf2 w2) as [[[e3|] sf3] w3]; cbn [fst snd] in *;
    subst sf3; cbn;
    (split_and!; try done; right; split_and!; try done;
     rewrite Hregs3, Hregs2, Hidx2; reflexivity).
Qed.

(** What [managedAddStorageFolder] does to the registry, under any schedule:
    nothing, or the insertion of the new folder, idle, under an index that
    was unused, for a path that was not registered. *)
Lemma managedAdd_registry (sf : storageFolder) (w : World) :
  0 ≤ atomicProgressNumerator sf < 18446744073709551616 →
  Path (managedAddStorageFolder c sf w).1.2 = Path sf
  ∧ Usage (managedAddStorageFolder c sf w).1.2 = Usage sf
  ∧ failedReads (managedAddStorageFolder c sf w).1.2 = failedReads sf
  ∧ (storageFolders (managedAddStorageFolder c sf w).2 = storageFolders w
     ∨ (storageFolders (managedAddStorageFolder c sf w).2
        = <[Index (managedAddStorageFolder c sf w).1.2
            := (managedAddStorageFolder c sf w).1.2]> (storageFolders w)
        ∧ (Index (managedAddStorageFolder c sf w).1.2 ∉ uniqueFolders w)
        ∧ 0 ≤ Index (managedAddStorageFolder c sf w).1.2 < 65536
        ∧ (Path sf ∉ Path <$> committedFolders w)
        ∧ (Path sf ∉ Path <$> pendingFolders w)
        ∧ atomicProgressNumerator (managedAddStorageFolder c sf w).1.2 = 0
        ∧ atomicProgressDenominator (managedAddStorageFolder c sf w).1.2 = 0)).
Proof.
  intros Hnum.
  destruct (addLocked_any sf w)
    as (Hregs1 & Hpath1 & Husage1 & Hreads1 & Hnum1 & Hfresh).
  destruct (addLocked c sf w) as [[[e|] sf1] w1] eqn:Hlocked; cbn [fst snd] in *.
  { rewrite (managedAdd_locked_error _ _ _ _ _ Hlocked). cbn.
    split_and!; try done. by left. }
  destruct (Hfresh eq_refl) as (Hnotin & Hrange & Hc & Hp).
  destruct (addBody_any sf1 w1) as (Hidx2 & Hpath2 & Husage2 & Hreads2 & Hregs2);
    [by rewrite Hnum1|].
  destruct (addBody c sf1 w1) as [[[result err] sf2] w2] eqn:Hbody.
  rewrite (managedAdd_result c _ _ _ _ _ _ _ _ Hlocked Hbody).
  cbn [fst snd] in *. rewrite deferredRollback_any.
  split; [congruence|]. split; [congruence|]. split; [congruence|].
  destruct Hregs2 as [Hsame|(Hins & Hn0 & Hd0)].
  - left. congruence.
  - right. rewrite Hidx2, Hins, Hregs1. split_and!; try done; lia.
Qed.

End AnySchedule.

(** ** Error paths of [managedAddStorageFolder] *)

Lemma scan_index_absent (scs : list stateChange) (index : Z) :
  replayFrom ∅ scs !! index = None →
  ∀ f, f ∈ findUnfinishedStorageFolderAdditions scs → Index f ≠ index.
Proof.
  intros Hnone f Hin Heq. unfold findUnfinishedStorageFolderAdditions in Hin.
  apply list_elem_of_fmap in Hin as ([k f'] & -> & Hin).
  apply elem_of_map_to_list in Hin. simpl in Heq.
  pose proof Hin as Hlook.
  apply replayFrom_empty_lookup in Hin as (_ & _ & _ & Hk & _).
  congruence.
Qed.

Lemma replay_pending_errored (scs : list stateChange) (sf : storageFolder) :
  replayFrom ∅ (scs ++ [pendingChange sf; erroredChange (Index sf)]) !! Index sf
  = None.
Proof. rewrite replayFrom_app. cbn. apply lookup_delete_eq. Qed.

Lemma replay_pending_committed (scs : list stateChange) (sf sf' : storageFolder) :
  Index sf' = Index sf →
  replayFrom ∅ (scs ++ [pendingChange sf; committedChange sf']) !! Index sf
  = None.
Proof. intros Heq. rewrite replayFrom_app. cbn. rewrite Heq. apply lookup_delete_eq. Qed.

Section ErrorPaths.

Variable c : Constants.

(** X1: with more distinct folder indices than the maximum, the request is
    refused with the capacity error before anything is touched: no entropy
    is drawn, nothing is logged, appended or created. *)
Theorem managedAdd_over_capacity (sf : storageFolder) (w : World) :
  Path sf ∉ Path <$> committedFolders w →
  Path sf ∉ Path <$> pendingFolders w →
  maximumStorageFolders c < Z.of_nat (size (uniqueFolders w)) →
  managedAddStorageFolder c sf w = (Some errMaxStorageFolders, sf, w).
Proof.
  intros Hc Hp Hover.
  apply managedAdd_locked_error. by apply addLocked_over_capacity.
Qed.

(** X2: with every one of the 65536 indices in use, whatever the maximum, the
    request is refused with the capacity error; the condition is logged as
    critical, and no record is appended, no file created and the registry
    left as it was. *)
Theorem managedAdd_index_space_exhausted (sf : storageFolder) (w : World) :
  Path sf ∉ Path <$> committedFolders w →
  Path sf ∉ Path <$> pendingFolders w →
  (∀ i, 0 ≤ i < 65536 → i ∈ uniqueFolders w) →
  (managedAddStorageFolder c sf w).1 = (Some errMaxStorageFolders, sf)
  ∧ walRecords (managedAddStorageFolder c sf w).2 = walRecords w
  ∧ files (managedAddStorageFolder c sf w).2 = files w
  ∧ storageFolders (managedAddStorageFolder c sf w).2 = storageFolders w
  ∧ calls (managedAddStorageFolder c sf w).2 = calls w.
Proof.
  intros Hc Hp Hall.
  destruct (addLocked_no_free_index c sf w Hc Hp Hall) as (Hres & Hwal & Hfs & Hregs).
  assert (calls (addLocked c sf w).2 = calls w) as Hcalls.
  { destruct (Z_lt_le_dec (maximumStorageFolders c)
                (Z.of_nat (size (uniqueFolders w)))) as [Hover|Hle].
    - by rewrite addLocked_over_capacity.
    - rewrite addLocked_checked by done. unfold bind at 1.
      rewrite assignIndex_run.
      rewrite (proj2 (probe_exhausted _ _ (wrap16_range _)) Hall).
      destruct (afterEntropy_frame w) as (_ & _ & _ & _ & Hcalls & _).
      cbn -[fullMessage]. done. }
  destruct (addLocked c sf w) as [[err sf1] w1] eqn:Hlocked. cbn [fst snd] in *.
  injection Hres as -> ->.
  rewrite (managedAdd_locked_error c _ _ _ _ _ Hlocked). done.
Qed.

(** X3: when the creation of the sector file fails, the error is returned
    with its description; no record is appended, the rollback does not run
    (the only collaborator call is the creation), and registry and files are
    as before. *)
Theorem managedAdd_create_fails (sf : storageFolder) (w : World) (e : error)
  (rest : list (option error)) :
  Path sf ∉ Path <$> committedFolders w →
  Path sf ∉ Path <$> pendingFolders w →
  Z.of_nat (size (uniqueFolders w)) ≤ maximumStorageFolders c →
  (∃ i, 0 ≤ i < 65536 ∧ i ∉ uniqueFolders w) →
  faults w = Some e :: rest →
  (managedAddStorageFolder c sf w).1.1
  = Some (errExtended "could not create storage folder file" e)
  ∧ walRecords (managedAddStorageFolder c sf w).2 = walRecords w
  ∧ uncommittedChanges (managedAddStorageFolder c sf w).2 = uncommittedChanges w
  ∧ storageFolders (managedAddStorageFolder c sf w).2 = storageFolders w
  ∧ files (managedAddStorageFolder c sf w).2 = files w
  ∧ calls (managedAddStorageFolder c sf w).2
    = calls w ++ [CallCreateFile (sectorHousingName c sf)].
Proof.
  intros Hc Hp Hsize Hfree Hfaults.
  assert (∃ sf1 w1, addLocked c sf w
                    = (Some (errExtended "could not create storage folder file" e),
                       sf1, w1)
                    ∧ walRecords w1 = walRecords w
                    ∧ uncommittedChanges w1 = uncommittedChanges w
                    ∧ storageFolders w1 = storageFolders w
                    ∧ files w1 = files w
                    ∧ calls w1 = calls w ++ [CallCreateFile (sectorHousingName c sf)])
    as (sf1 & w1 & Hlocked & Hrest).
  { rewrite addLocked_checked by done. unfold bind at 1.
    rewrite assignIndex_run.
    pose proof (wrap16_range (RandIntn 65536 w).1.1) as Hstart.
    pose proof (probe_finds_free _ _ Hstart Hfree) as Hprobe.
    destruct (probe probeCount (uniqueFolders w) 0 (wrap16 (RandIntn 65536 w).1.1))
      as [iterator index].
    destruct (Hprobe _ _ eq_refl) as (Hit & _).
    cbn [fst snd].
    destruct (Z.eqb_spec iterator 65536) as [|_]; [lia|].
    destruct (afterEntropy_frame w) as (Hregs & Hunc & Hwal & Hfs & Hcalls & Hfl & _).
    destruct (createAndAnnounce_create_fails c (set_Index sf index)
                (afterEntropy w) e rest)
      as (w1 & Hrun & Hregs1 & Hunc1 & Hwal1 & Hfs1 & _ & Hcalls1 & _).
    { by rewrite Hfl. }
    eexists _, w1. split; [exact Hrun|].
    split_and!; try congruence. rewrite Hcalls1, Hcalls. reflexivity. }
  rewrite (managedAdd_locked_error c _ _ _ _ _ Hlocked).
  split; [reflexivity|exact Hrest].
Qed.

(** The run of [managedAddStorageFolder] when the allocation fails: the
    deferred function appends the errored-addition record and removes the
    file (both succeed here). *)
Lemma managedAdd_allocation_failed (sf sf1 sf2 : storageFolder) (w w1 w2 : World)
  (result : option error) (e : error) (rest : list (option error)) :
  addLocked c sf w = (None, sf1, w1) →
  allocate c sf1 w1 = (true, result, Some e, sf2, w2) →
  faults w2 = None :: None :: rest →
  is_Some (files w2 !! sectorHousingName c sf) →
  ∃ w', managedAddStorageFolder c sf w = (result, sf2, w')
        ∧ storageFolders w' = storageFolders w2
        ∧ walRecords w' = walRecords w2 ++ [erroredChange (Index sf2)]
        ∧ files w' = delete (sectorHousingName c sf) (files w2)
        ∧ faults w' = rest.
Proof.
  intros Hlocked Halloc Hfaults Hfile.
  assert (addBody c sf1 w1 = (result, Some e, sf2, w2)) as Hbody.
  { unfold addBody, bind. by rewrite Halloc. }
  rewrite (managedAdd_result c _ _ _ _ _ _ _ _ Hlocked Hbody).
  destruct (deferredRollback_run (sectorHousingName c sf) sf2 e w2 None None rest
              Hfaults Hfile) as (Hregs & Hwal & Hfs & _ & Hfl).
  eexists. split; [reflexivity|]. done.
Qed.

(** X4: a write of the allocation fails: write number [k], counted from 0,
    after [k] full chunks.  The error is returned with its description, the
    numerator stands at the [k] chunks written, and the rollback leaves the
    registry as it was, the sector file removed and the log with the pending
    record followed by the errored record, so that the recovery scan does
    not report the index as unfinished. *)
Theorem managedAdd_write_fails (sf : storageFolder) (w : World) (k : nat)
  (e : error) (rest : list (option error)) :
  Path sf ∉ Path <$> committedFolders w →
  Path sf ∉ Path <$> pendingFolders w →
  Z.of_nat (size (uniqueFolders w)) ≤ maximumStorageFolders c →
  (∃ i, 0 ≤ i < 65536 ∧ i ∉ uniqueFolders w) →
  atomicProgressNumerator sf = 0 →
  Z.of_nat k ≤ totalSize c sf / 4000000 →
  faults w = None :: None :: replicate k None ++ Some e :: None :: None :: rest →
  ∃ sf1 sf' w',
    managedAddStorageFolder c sf w
    = (Some (errExtended "could not allocate storage folder" e), sf', w')
    ∧ Index sf1 = Index sf'
    ∧ (Index sf' ∉ uniqueFolders w)
    ∧ atomicProgressNumerator sf' = Z.of_nat k * 4000000
    ∧ atomicProgressDenominator sf' = totalSize c sf
    ∧ storageFolders w' = storageFolders w
    ∧ walRecords w'
      = walRecords w ++ [pendingChange sf1; erroredChange (Index sf')]
    ∧ files w' = delete (sectorHousingName c sf) (files w)
    ∧ (∀ f, f ∈ findUnfinishedStorageFolderAdditions (walRecords w') →
            Index f ≠ Index sf').
Proof.
  intros Hc Hp Hsize Hfree Hnum Hk Hfaults.
  pose proof (totalSize_range c sf) as Htotal.
  destruct (addLocked_run c sf w None _ Hc Hp Hsize Hfree Hfaults)
    as (index & w1 & Hlocked & Hidx & Hnotin & Hregs1 & Hwal1 & Hfs1 & Hdis1 & Hfl1).
  cbn zeta in *.
  lazymatch type of Hlocked with
  | addLocked c sf w = (None, ?s1, w1) =>
      destruct (allocate_write_fails c k s1 w1 (sectorHousingName c sf) 0 e
                  (None :: None :: rest))
        as (w2 & Halloc & Hregs2 & Hwal2 & Hfs2 & Hdis2 & Hfl2);
      [exact Hk | exact Hfl1 | reflexivity | by rewrite Hfs1, lookup_insert_eq
      | cbn; lia |]
  end.
  destruct (managedAdd_allocation_failed _ _ _ _ _ _ _ _ _ Hlocked Halloc Hfl2)
    as (w' & Hrun & Hregs' & Hwal' & Hfs' & _).
  { rewrite Hfs2, lookup_insert_eq. eauto. }
  lazymatch type of Halloc with
  | allocate c ?s1 w1 = (_, _, _, ?s2, _) => exists s1, s2, w'
  end.
  split; [exact Hrun|].
  cbn [Index set_Numerator set_Denominator set_file set_Index
       atomicProgressNumerator atomicProgressDenominator] in *.
  split; [reflexivity|].
  split; [exact Hnotin|].
  split.
  { rewrite Hnum, Z.add_0_l, wrap64_small; [done|].
    pose proof (Z.div_mod (totalSize c sf) 4000000).
    pose proof (Z.mod_pos_bound (totalSize c sf) 4000000). lia. }
  split; [reflexivity|].
  split; [congruence|].
  rewrite Hwal', Hwal2, Hwal1, <- app_assoc. cbn [app].
  split; [reflexivity|].
  split.
  { rewrite Hfs', Hfs2, Hfs1, insert_insert_eq. apply delete_insert_eq. }
  apply scan_index_absent.
  apply (replay_pending_errored (walRecords w)
           (set_Denominator
              (set_file (set_Index sf index) (Some (sectorHousingName c sf)))
              (totalSize c sf))).
Qed.

(** X5: the sync of the written file fails.  The error is returned with its
    description; the whole file had been written and is removed again, the
    registry is as it was, and the log holds the pending record followed by
    the errored record. *)
Theorem managedAdd_sync_fails (sf : storageFolder) (w : World) (e : error)
  (rest : list (option error)) :
  Path sf ∉ Path <$> committedFolders w →
  Path sf ∉ Path <$> pendingFolders w →
  Z.of_nat (size (uniqueFolders w)) ≤ maximumStorageFolders c →
  (∃ i, 0 ≤ i < 65536 ∧ i ∉ uniqueFolders w) →
  atomicProgressNumerator sf = 0 →
  faults w
  = None :: None
    :: replicate (Z.to_nat (totalSize c sf / 4000000) + 1) None
       ++ Some e :: None :: None :: rest →
  ∃ sf1 sf' w',
    managedAddStorageFolder c sf w
    = (Some (errExtended "could not syncronize allocated storage folder" e),
       sf', w')
    ∧ Index sf1 = Index sf'
    ∧ (Index sf' ∉ uniqueFolders w)
    ∧ storageFolders w' = storageFolders w
    ∧ walRecords w'
      = walRecords w ++ [pendingChange sf1; erroredChange (Index sf')]
    ∧ files w' = delete (sectorHousingName c sf) (files w)
    ∧ (∀ f, f ∈ findUnfinishedStorageFolderAdditions (walRecords w') →
            Index f ≠ Index sf').
Proof.
  intros Hc Hp Hsize Hfree Hnum Hfaults.
  destruct (addLocked_run c sf w None _ Hc Hp Hsize Hfree Hfaults)
    as (index & w1 & Hlocked & Hidx & Hnotin & Hregs1 & Hwal1 & Hfs1 & Hdis1 & Hfl1).
  cbn zeta in *.
  lazymatch type of Hlocked with
  | addLocked c sf w = (None, ?s1, w1) =>
      destruct (allocate_sync_fails c s1 w1 (sectorHousingName c sf) 0 e
                  (None :: None :: rest))
        as (w2 & Halloc & Hregs2 & Hwal2 & Hfs2 & Hdis2 & Hfl2);
      [exact Hfl1 | reflexivity | by rewrite Hfs1, lookup_insert_eq
      | cbn; lia |]
  end.
  destruct (managedAdd_allocation_failed _ _ _ _ _ _ _ _ _ Hlocked Halloc Hfl2)
    as (w' & Hrun & Hregs' & Hwal' & Hfs' & _).
  { rewrite Hfs2, lookup_insert_eq. eauto. }
  lazymatch type of Halloc with
  | allocate c ?s1 w1 = (_, _, _, ?s2, _) => exists s1, s2, w'
  end.
  split; [exact Hrun|].
  cbn [Index set_Numerator set_Denominator set_file set_Index] in *.
  split; [reflexivity|].
  split; [exact Hnotin|].
  split; [congruence|].
  rewrite Hwal', Hwal2, Hwal1, <- app_assoc. cbn [app].
  split; [reflexivity|].
  split.
  { rewrite Hfs', Hfs2, Hfs1, insert_insert_eq. apply delete_insert_eq. }
  apply scan_index_absent.
  apply (replay_pending_errored (walRecords w)
           (set_Denominator
              (set_file (set_Index sf index) (Some (sectorHousingName c sf)))
              (totalSize c sf))).
Qed.


(** X6: the append of the committed-addition record fails.  By then the
    folder has been inserted into the registry with both counters at zero;
    the error is returned with its description and the rollback appends the
    errored record and removes the sector file, but the folder stays in the
    registry. *)
Theorem managedAdd_commit_append_fails (sf : storageFolder) (w : World)
  (e : error) (rest : list (option error)) :
  Path sf ∉ Path <$> committedFolders w →
  Path sf ∉ Path <$> pendingFolders w →
  Z.of_nat (size (uniqueFolders w)) ≤ maximumStorageFolders c →
  (∃ i, 0 ≤ i < 65536 ∧ i ∉ uniqueFolders w) →
  atomicProgressNumerator sf = 0 →
  disrupt w "incompleteAddStorageFolder" = false →
  faults w
  = None :: None
    :: replicate (Z.to_nat (totalSize c sf / 4000000) + 2) None
       ++ Some e :: None :: None :: rest →
  ∃ sf1 sf' w',
    managedAddStorageFolder c sf w
    = (Some (errExtended "storage folder commitment assignment failed" e),
       sf', w')
    ∧ Index sf1 = Index sf'
    ∧ Path sf' = Path sf
    ∧ atomicProgressNumerator sf' = 0
    ∧ atomicProgressDenominator sf' = 0
    ∧ storageFolders w' = <[Index sf' := sf']> (storageFolders w)
    ∧ walRecords w'
      = walRecords w ++ [pendingChange sf1; erroredChange (Index sf')]
    ∧ files w' = delete (sectorHousingName c sf) (files w).
Proof.
  intros Hc Hp Hsize Hfree Hnum Hdisrupt Hfaults.
  destruct (addLocked_run c sf w None _ Hc Hp Hsize Hfree Hfaults)
    as (index & w1 & Hlocked & Hidx & Hnotin & Hregs1 & Hwal1 & Hfs1 & Hdis1 & Hfl1).
  cbn zeta in *.
  lazymatch type of Hlocked with
  | addLocked c sf w = (None, ?s1, w1) =>
      destruct (allocate_run c s1 w1 (sectorHousingName c sf) 0
                  (Some e :: None :: None :: rest))
        as (w2 & Halloc & Hregs2 & Hwal2 & Hfs2 & Hdis2 & Hfl2);
      [exact Hfl1 | reflexivity | by rewrite Hfs1, lookup_insert_eq
      | cbn; lia |]
  end.
  lazymatch type of Halloc with
  | allocate c _ w1 = (_, _, _, ?s2, _) =>
      destruct (commitLocked_run s2 w2 (Some e) _ Hfl2)
        as (w3 & Hcommit & Hregs3 & Hwal3 & Hfs3 & Hfl3)
  end.
  cbn zeta in Hcommit.
  lazymatch type of Hcommit with
  | commitLocked _ w2 = (?r, ?s3, _) =>
      lazymatch type of Hlocked with
      | addLocked c sf w = (None, ?s1, w1) =>
          assert (addBody c s1 w1 = (r, r, s3, w3)) as Hbody
      end
  end.
  { unfold addBody, bind. rewrite Halloc.
    unfold getWorld. rewrite Hdis2, Hdis1, Hdisrupt, Hcommit. reflexivity. }
  rewrite (managedAdd_result c _ _ _ _ _ _ _ _ Hlocked Hbody).
  lazymatch type of Hcommit with
  | commitLocked _ w2 = (_, ?s3, _) =>
      destruct (deferredRollback_run (sectorHousingName c sf) s3
                  (errExtended "storage folder commitment assignment failed" e)
                  w3 None None rest Hfl3)
        as (Hregs4 & Hwal4 & Hfs4 & _ & _)
  end.
  { rewrite Hfs3, Hfs2, lookup_insert_eq. eauto. }
  lazymatch type of Hlocked with
  | addLocked c sf w = (None, ?s1, w1) => exists s1
  end.
  eexists _, _. split; [reflexivity|].
  cbn [Index Path set_Numerator set_Denominator set_file set_Index
       atomicProgressNumerator atomicProgressDenominator ExtendErr] in *.
  split; [reflexivity|]. split; [reflexivity|].
  split; [reflexivity|]. split; [reflexivity|].
  split; [rewrite Hregs4, Hregs3, Hregs2, Hregs1; reflexivity|].
  split.
  { rewrite Hwal4, Hwal3, Hwal2, Hwal1, app_nil_r, <- app_assoc. reflexivity. }
  rewrite Hfs4, Hfs3, Hfs2, Hfs1, insert_insert_eq. apply delete_insert_eq.
Qed.

(** X7: the outcome of the append of the pending-addition record is not
    looked at.  When that append fails and everything after it succeeds,
    the folder is added all the same, and the log receives the
    committed-addition record without a pending record before it. *)
Theorem managedAdd_pending_append_failure_ignored (sf : storageFolder)
  (w : World) (e : error) (rest : list (option error)) :
  Path sf ∉ Path <$> committedFolders w →
  Path sf ∉ Path <$> pendingFolders w →
  Z.of_nat (size (uniqueFolders w)) ≤ maximumStorageFolders c →
  (∃ i, 0 ≤ i < 65536 ∧ i ∉ uniqueFolders w) →
  atomicProgressNumerator sf = 0 →
  disrupt w "incompleteAddStorageFolder" = false →
  faults w
  = None :: Some e
    :: replicate (Z.to_nat (totalSize c sf / 4000000) + 2) None
       ++ None :: rest →
  ∃ sf' w',
    managedAddStorageFolder c sf w = (None, sf', w')
    ∧ Path sf' = Path sf
    ∧ (Index sf' ∉ uniqueFolders w)
    ∧ storageFolders w' = <[Index sf' := sf']> (storageFolders w)
    ∧ walRecords w' = walRecords w ++ [committedChange sf']
    ∧ files w' = <[sectorHousingName c sf := File (totalSize c sf)]> (files w).
Proof.
  intros Hc Hp Hsize Hfree Hnum Hdisrupt Hfaults.
  destruct (addLocked_run c sf w (Some e) _ Hc Hp Hsize Hfree Hfaults)
    as (index & w1 & Hlocked & Hidx & Hnotin & Hregs1 & Hwal1 & Hfs1 & Hdis1 & Hfl1).
  cbn zeta in *.
  lazymatch type of Hlocked with
  | addLocked c sf w = (None, ?s1, w1) =>
      destruct (allocate_run c s1 w1 (sectorHousingName c sf) 0 (None :: rest))
        as (w2 & Halloc & Hregs2 & Hwal2 & Hfs2 & Hdis2 & Hfl2);
      [exact Hfl1 | reflexivity | by rewrite Hfs1, lookup_insert_eq
      | cbn; lia |]
  end.
  lazymatch type of Halloc with
  | allocate c _ w1 = (_, _, _, ?s2, _) =>
      destruct (commitLocked_run s2 w2 None _ Hfl2)
        as (w3 & Hcommit & Hregs3 & Hwal3 & Hfs3 & Hfl3)
  end.
  cbn zeta in Hcommit.
  lazymatch type of Hcommit with
  | commitLocked _ w2 = (_, ?s3, _) =>
      lazymatch type of Hlocked with
      | addLocked c sf w = (None, ?s1, w1) =>
          assert (addBody c s1 w1 = (None, None, s3, w3)) as Hbody
      end
  end.
  { unfold addBody, bind. rewrite Halloc.
    unfold getWorld. rewrite Hdis2, Hdis1, Hdisrupt, Hcommit. reflexivity. }
  rewrite (managedAdd_result c _ _ _ _ _ _ _ _ Hlocked Hbody).
  eexists _, _. split; [reflexivity|].
  cbn [Index Path set_Numerator set_Denominator set_file set_Index
       deferredRollback ret snd] in *.
  split; [reflexivity|].
  split; [exact Hnotin|].
  split; [rewrite Hregs3, Hregs2, Hregs1; reflexivity|].
  split; [rewrite Hwal3, Hwal2, Hwal1, app_nil_r; reflexivity|].
  rewrite Hfs3, Hfs2, Hfs1, insert_insert_eq. reflexivity.
Qed.

(** X8: whatever the collaborators do, [managedAddStorageFolder] keeps the
    registry keyed by index and free of duplicate paths, and it never
    removes or replaces a folder that was registered. *)
Theorem managedAdd_keeps_registry_invariants (sf : storageFolder) (w : World) :
  0 ≤ atomicProgressNumerator sf < 18446744073709551616 →
  wellKeyed (storageFolders w) →
  distinctPaths (storageFolders w) →
  wellKeyed (storageFolders (managedAddStorageFolder c sf w).2)
  ∧ distinctPaths (storageFolders (managedAddStorageFolder c sf w).2)
  ∧ (∀ k f, storageFolders w !! k = Some f →
            storageFolders (managedAddStorageFolder c sf w).2 !! k = Some f).
Proof.
  intros Hnum Hkeyed Hpaths.
  destruct (managedAdd_registry c sf w Hnum)
    as (Hpath & _ & _ & [->|(-> & Hnotin & _ & Hc & _)]); [done|].
  set (sf' := (managedAddStorageFolder c sf w).1.2) in *.
  assert (∀ k f, storageFolders w !! k = Some f → f ∈ committedFolders w) as Hin.
  { intros k f Hlook. unfold committedFolders. apply list_elem_of_fmap.
    exists (k, f). split; [done|]. by apply elem_of_map_to_list. }
  assert (storageFolders w !! Index sf' = None) as Hfresh.
  { destruct (storageFolders w !! Index sf') as [f|] eqn:Hlook; [|done].
    exfalso. apply Hnotin, elem_of_uniqueFolders. exists f.
    split; [left; eauto|]. by apply Hkeyed. }
  assert (∀ k f, storageFolders w !! k = Some f → Path f ≠ Path sf') as Hnew.
  { intros k f Hlook Heq. apply Hc. rewrite <- Hpath, <- Heq.
    apply list_elem_of_fmap_2. eauto. }
  split_and!.
  - intros k f Hlook. apply lookup_insert_Some in Hlook as [[<- <-]|[_ Hlook]];
      [done|by apply Hkeyed].
  - intros k1 k2 f1 f2 H1 H2 Heq.
    apply lookup_insert_Some in H1 as [[<- <-]|[Hne1 H1]];
      apply lookup_insert_Some in H2 as [[<- <-]|[Hne2 H2]]; try done.
    + exfalso. by apply (Hnew _ _ H2).
    + exfalso. by apply (Hnew _ _ H1).
    + by apply (Hpaths _ _ _ _ H1 H2).
  - intros k f Hlook. rewrite lookup_insert_ne; [done|]. congruence.
Qed.

(** X9: however the allocation ends, the numerator does not exceed the
    denominator: it is the size of the full chunks written so far, a
    multiple of the chunk size, and at most the total size. *)
Theorem allocate_numerator_bounded (sf : storageFolder) (w : World) :
  atomicProgressNumerator sf = 0 →
  atomicProgressDenominator sf = totalSize c sf →
  0 ≤ atomicProgressNumerator (allocate c sf w).1.2
    ≤ atomicProgressDenominator (allocate c sf w).1.2
  ∧ (4000000 | atomicProgressNumerator (allocate c sf w).1.2)
  ∧ atomicProgressDenominator (allocate c sf w).1.2 = totalSize c sf.
Proof.
  intros Hnum Hden.
  pose proof (totalSize_range c sf) as Htotal.
  destruct (allocate_any c sf w) as (_ & _ & _ & _ & _ & _ & Hden' & j & Hj & Hnum');
    [rewrite Hnum; lia|].
  assert (atomicProgressDenominator (allocate c sf w).1.2 = totalSize c sf) as Hd.
  { destruct Hden'; congruence. }
  assert (0 ≤ Z.of_nat j * 4000000 ≤ totalSize c sf) as Hbound.
  { pose proof (Z.div_mod (totalSize c sf) 4000000).
    pose proof (Z.mod_pos_bound (totalSize c sf) 4000000). lia. }
  rewrite Hnum', Hnum, Z.add_0_l, wrap64_small, Hd by lia.
  split; [lia|]. split; [by exists (Z.of_nat j)|reflexivity].
Qed.

End ErrorPaths.

(** ** Recovery: scan, cleanup and replay together *)

Lemma findUnfinished_lookup (scs : list stateChange) (f : storageFolder) :
  f ∈ findUnfinishedStorageFolderAdditions scs ↔
  replayFrom ∅ scs !! Index f = Some f.
Proof.
  unfold findUnfinishedStorageFolderAdditions. rewrite list_elem_of_fmap. split.
  - intros ([k f'] & -> & Hin). apply elem_of_map_to_list in Hin. simpl.
    pose proof Hin as Hlook.
    apply replayFrom_empty_lookup in Hin as (_ & _ & _ & <- & _). done.
  - intros Hlook. exists (Index f, f). split; [done|].
    by apply elem_of_map_to_list.
Qed.

Lemma replay_errored_all (l : list storageFolder) :
  ∀ m, replayFrom m ((λ sf, erroredChange (Index sf)) <$> l)
       = foldl (λ m sf, delete (Index sf) m) m l.
Proof.
  induction l as [|sf l IH]; intros m; [reflexivity|].
  rewrite fmap_cons. cbn. apply IH.
Qed.

Lemma foldl_delete_lookup (l : list storageFolder) :
  ∀ (m : gmap Z storageFolder) (k : Z),
    foldl (λ m sf, delete (Index sf) m) m l !! k
    = if decide (k ∈ Index <$> l) then None else m !! k.
Proof.
  induction l as [|sf l IH]; intros m k; [reflexivity|].
  cbn [foldl]. rewrite IH, fmap_cons.
  destruct (decide (k ∈ Index <$> l)) as [Hin|Hout].
  - rewrite decide_True; [done|]. by apply list_elem_of_further.
  - destruct (decide (k = Index sf)) as [->|Hne].
    + rewrite lookup_delete_eq, decide_True; [done|]. apply list_elem_of_here.
    + rewrite lookup_delete_ne by done. rewrite decide_False; [done|].
      rewrite not_elem_of_cons. done.
Qed.

(** Marking every unfinished addition as errored leaves nothing unfinished. *)
Lemma scan_after_cleanup (scs : list stateChange) :
  findUnfinishedStorageFolderAdditions
    (scs ++ ((λ sf, erroredChange (Index sf))
               <$> findUnfinishedStorageFolderAdditions scs))
  = [].
Proof.
  unfold findUnfinishedStorageFolderAdditions at 1.
  rewrite replayFrom_app, replay_errored_all.
  replace (foldl _ _ _) with (∅ : gmap Z storageFolder);
    [by rewrite map_to_list_empty|].
  symmetry. apply map_eq. intros k. rewrite lookup_empty, foldl_delete_lookup.
  destruct (decide _) as [|Hout]; [done|].
  destruct (replayFrom ∅ scs !! k) as [f|] eqn:Hlook; [|done].
  exfalso. apply Hout.
  pose proof Hlook as Hk.
  apply replayFrom_empty_lookup in Hk as (_ & _ & _ & Hk & _).
  rewrite <- Hk. apply list_elem_of_fmap_2, findUnfinished_lookup. by rewrite Hk.
Qed.

Section Recovery.

Variable c : Constants.

Lemma cleanupOne_noFaults (sf : storageFolder) (w : World) :
  noFaults w →
  ∃ w', cleanupOne c sf w = (None, w')
        ∧ noFaults w'
        ∧ storageFolders w' = storageFolders w
        ∧ files w' = delete (sectorHousingName c sf) (files w).
Proof.
  intros Hok. destruct w as [regs unc wal fs log cs fl ent dis tg].
  unfold noFaults in *. simpl in Hok.
  unfold cleanupOne, osRemove, appendChange, logPrintln, perform, bind, ret.
  cbn [faults calls files walRecords fst snd].
  next_fault Hok fl; cbn;
    [|next_fault Hok fl; cbn];
    destruct (fs !! sectorHousingName c sf) eqn:Hlook; cbn;
    (eexists; split; [reflexivity|]); cbn;
    (split_and!; try done; by rewrite delete_id).
Qed.

Lemma cleanupLoop_noFaults (sfs : list storageFolder) :
  ∀ w, noFaults w →
    ∃ w', cleanupLoop c sfs w = (None, w')
          ∧ storageFolders w' = storageFolders w
          ∧ files w'
            = foldl (λ fs sf, delete (sectorHousingName c sf) fs) (files w) sfs.
Proof.
  induction sfs as [|sf sfs IH]; intros w Hok.
  - exists w. done.
  - cbn [cleanupLoop foldl]. unfold bind.
    destruct (cleanupOne_noFaults sf w Hok) as (w1 & -> & Hok1 & Hregs1 & Hfs1).
    destruct (IH w1 Hok1) as (w' & -> & Hregs & Hfs).
    exists w'. split; [done|]. split; [congruence|]. by rewrite Hfs, Hfs1.
Qed.

Lemma foldl_delete_files (sfs : list storageFolder) :
  ∀ (fs : gmap string node) (sf : storageFolder),
    sf ∈ sfs →
    foldl (λ fs sf, delete (sectorHousingName c sf) fs) fs sfs
    !! sectorHousingName c sf = None.
Proof.
  assert (∀ (l : list storageFolder) (fs : gmap string node) p,
            fs !! p = None →
            foldl (λ fs sf, delete (sectorHousingName c sf) fs) fs l !! p = None)
    as Hkeep.
  { induction l as [|x l IH]; intros fs p Hp; [done|].
    cbn. apply IH. rewrite lookup_delete_None. by right. }
  induction sfs as [|x sfs IH]; intros fs sf Hin; [by apply elem_of_nil in Hin|].
  apply elem_of_cons in Hin as [->|Hin]; cbn.
  - apply Hkeep, lookup_delete_eq.
  - by apply IH.
Qed.

(** The cleanup when no collaborator call is scheduled to fail. *)
Lemma cleanup_noFaults (scs : list stateChange) (w : World) :
  noFaults w →
  ∃ w', cleanupUnfinishedStorageFolderAdditions c scs w = (None, w')
        ∧ walRecords w'
          = walRecords w ++ ((λ sf, erroredChange (Index sf))
                               <$> findUnfinishedStorageFolderAdditions scs)
        ∧ storageFolders w' = storageFolders w
        ∧ (∀ sf, sf ∈ findUnfinishedStorageFolderAdditions scs →
                 files w' !! sectorHousingName c sf = None)
        ∧ findUnfinishedStorageFolderAdditions
            (scs ++ ((λ sf, erroredChange (Index sf))
                       <$> findUnfinishedStorageFolderAdditions scs))
          = [].
Proof.
  intros Hok. unfold cleanupUnfinishedStorageFolderAdditions.
  destruct (cleanupLoop_noFaults (findUnfinishedStorageFolderAdditions scs) w Hok)
    as (w' & Hrun & Hregs & Hfs).
  destruct (cleanupLoop_completed c _ _ _ Hrun) as (_ & Hwal & _).
  exists w'. split; [exact Hrun|]. split; [exact Hwal|]. split; [exact Hregs|].
  split; [|apply scan_after_cleanup].
  intros sf Hin. rewrite Hfs. by apply foldl_delete_files.
Qed.

(** X10: when no collaborator call fails for another reason, the cleanup
    returns [nil] whether or not the sector files exist; it appends one
    errored record per unfinished addition, leaves no sector file of theirs
    behind and does not touch the registry.  A scan of the log extended with
    these records finds nothing unfinished. *)
Theorem cleanup_restores_consistency (scs : list stateChange) (w : World) :
  noFaults w →
  ∃ w', cleanupUnfinishedStorageFolderAdditions c scs w = (None, w')
        ∧ walRecords w'
          = walRecords w ++ ((λ sf, erroredChange (Index sf))
                               <$> findUnfinishedStorageFolderAdditions scs)
        ∧ storageFolders w' = storageFolders w
        ∧ (∀ sf, sf ∈ findUnfinishedStorageFolderAdditions scs →
                 files w' !! sectorHousingName c sf = None)
        ∧ findUnfinishedStorageFolderAdditions
            (scs ++ ((λ sf, erroredChange (Index sf))
                       <$> findUnfinishedStorageFolderAdditions scs))
          = [].
Proof. apply cleanup_noFaults. Qed.

(** X11: a removal that fails does not stop the cleanup.  When every removal
    fails and every append succeeds, the cleanup returns [nil], logs each
    failure, appends the errored record of every unfinished addition, and
    the files are all still there. *)
Theorem cleanup_tolerates_failed_removals (scs : list stateChange) (w : World)
  (es : list error) (rest : list (option error)) :
  length es = length (findUnfinishedStorageFolderAdditions scs) →
  faults w = (es ≫= λ e, [Some e; None]) ++ rest →
  ∃ w', cleanupUnfinishedStorageFolderAdditions c scs w = (None, w')
        ∧ walRecords w'
          = walRecords w ++ ((λ sf, erroredChange (Index sf))
                               <$> findUnfinishedStorageFolderAdditions scs)
        ∧ files w' = files w
        ∧ logLines w'
          = logLines w
            ++ zip_with (λ sf e,
                 Println ("Unable to remove documented sector housing: "
                          +:+ sectorHousingName c sf) (Some e))
                 (findUnfinishedStorageFolderAdditions scs) es
        ∧ faults w' = rest.
Proof.
  unfold cleanupUnfinishedStorageFolderAdditions.
  generalize (findUnfinishedStorageFolderAdditions scs) as sfs.
  intros sfs. revert w es.
  induction sfs as [|sf sfs IH]; intros w es Hlen Hfaults.
  - destruct es; [|discriminate Hlen]. exists w. cbn in *.
    rewrite !app_nil_r. done.
  - destruct es as [|e es]; [discriminate Hlen|].
    cbn [cleanupLoop]. unfold bind at 1.
    destruct w as [regs unc wal fs log cs fl ent dis tg].
    cbn in Hfaults. subst fl.
    unfold cleanupOne, osRemove, appendChange, logPrintln, perform, bind, ret.
    cbn.
    edestruct (IH (mkWorld regs (unc ++ [erroredChange (Index sf)])
                     (wal ++ [erroredChange (Index sf)]) fs
                     (log ++ [Println ("Unable to remove documented sector housing: "
                                       +:+ sectorHousingName c sf) (Some e)])
                     ((cs ++ [CallRemove (sectorHousingName c sf)])
                        ++ [CallAppendChange (erroredChange (Index sf))])
                     ((es ≫= λ e, [Some e; None]) ++ rest) ent dis tg) es)
      as (w' & Hrun & Hwal & Hfs & Hlog & Hfl);
      [by injection Hlen | reflexivity |].
    exists w'. cbn in *. rewrite Hrun.
    split; [reflexivity|].
    split; [by rewrite Hwal, <- app_assoc|].
    split; [exact Hfs|].
    split; [by rewrite Hlog, <- app_assoc|exact Hfl].
Qed.

(** The successful run, with the two records that it appends. *)
Lemma managedAdd_success (sf : storageFolder) (w : World) :
  Path sf ∉ Path <$> committedFolders w →
  Path sf ∉ Path <$> pendingFolders w →
  Z.of_nat (size (uniqueFolders w)) ≤ maximumStorageFolders c →
  (∃ i, 0 ≤ i < 65536 ∧ i ∉ uniqueFolders w) →
  noFaults w →
  0 ≤ atomicProgressNumerator sf < 18446744073709551616 →
  disrupt w "incompleteAddStorageFolder" = false →
  ∃ index w',
    let name := sectorHousingName c sf in
    let sf1 := set_Denominator (set_file (set_Index sf index) (Some name))
                 (totalSize c sf) in
    let sf' := mkStorageFolder index (Path sf) (Usage sf) (Some name) 0 0
                 (failedReads sf) in
    managedAddStorageFolder c sf w = (None, sf', w')
    ∧ (index ∉ uniqueFolders w)
    ∧ storageFolders w' = <[index := sf']> (storageFolders w)
    ∧ files w' = <[name := File (totalSize c sf)]> (files w)
    ∧ walRecords w' = walRecords w ++ [pendingChange sf1; committedChange sf'].
Proof.
  intros Hc Hp Hsize Hfree Hok Hnum Hdisrupt.
  destruct (allocated c sf w Hc Hp Hsize Hfree Hok Hnum)
    as (index & w1 & w2 & Hrun1 & Hrun2 & Hidx & Hnotin & Hregs2 & Hunc2
        & Hwal2 & Hfs2 & Hdis2 & Hok2).
  cbn zeta in *.
  lazymatch type of Hrun2 with
  | allocate c _ w1 = (_, _, _, ?sf2, _) =>
      destruct (commitLocked_ok sf2 w2 Hok2)
        as (w3 & Hrun3 & Hregs3 & Hunc3 & Hwal3 & Hfs3 & _ & _ & _)
  end.
  cbn zeta in Hrun3.
  exists index, w3. cbn zeta.
  lazymatch type of Hrun2 with
  | allocate c ?sf1 w1 = (_, _, _, ?sf2, _) =>
      assert (addBody c sf1 w1
              = (None, None, set_Denominator (set_Numerator sf2 0) 0, w3))
        as Hbody
  end.
  { unfold addBody, bind. rewrite Hrun2.
    unfold getWorld. rewrite Hdis2, Hdisrupt, Hrun3. reflexivity. }
  rewrite (managedAdd_result c sf _ _ w w1 w3 None None Hrun1 Hbody).
  split; [reflexivity|].
  split; [exact Hnotin|].
  split; [rewrite Hregs3, Hregs2; reflexivity|].
  split; [congruence|].
  rewrite Hwal3, Hwal2, <- app_assoc. reflexivity.
Qed.

(** X12: what an addition commits, recovery reinstalls.  After a successful
    [managedAddStorageFolder] the last record of the log is the
    committed-addition record of the folder, the recovery scan does not
    report its index, and replaying the record with [commitAddStorageFolder]
    on a manager that finds the same files installs the very folder that the
    addition registered, under the same index, whatever file handle the
    record read back carries. *)
Theorem add_then_replay (sf : storageFolder) (w : World) :
  Path sf ∉ Path <$> committedFolders w →
  Path sf ∉ Path <$> pendingFolders w →
  Z.of_nat (size (uniqueFolders w)) ≤ maximumStorageFolders c →
  (∃ i, 0 ≤ i < 65536 ∧ i ∉ uniqueFolders w) →
  noFaults w →
  0 ≤ atomicProgressNumerator sf < 18446744073709551616 →
  disrupt w "incompleteAddStorageFolder" = false →
  ∃ sf' w',
    managedAddStorageFolder c sf w = (None, sf', w')
    ∧ storageFolders w' !! Index sf' = Some sf'
    ∧ last (walRecords w') = Some (committedChange sf')
    ∧ (∀ f, f ∈ findUnfinishedStorageFolderAdditions (walRecords w') →
            Index f ≠ Index sf')
    ∧ (∀ w0 handle,
         files w0 = files w' → noFaults w0 →
         (commitAddStorageFolder c (set_file sf' handle) w0).1 = sf'
         ∧ storageFolders (commitAddStorageFolder c (set_file sf' handle) w0).2
           = <[Index sf' := sf']> (storageFolders w0)
         ∧ logLines (commitAddStorageFolder c (set_file sf' handle) w0).2
           = logLines w0).
Proof.
  intros Hc Hp Hsize Hfree Hok Hnum Hdisrupt.
  destruct (managedAdd_success sf w Hc Hp Hsize Hfree Hok Hnum Hdisrupt)
    as (index & w' & Hrun & Hnotin & Hregs & Hfs & Hwal).
  cbn zeta in *.
  eexists _, w'. split; [exact Hrun|]. cbn [Index].
  split; [by rewrite Hregs, lookup_insert_eq|].
  split.
  { rewrite Hwal.
    lazymatch goal with
    | |- last (?l ++ [?a; ?b]) = _ =>
        change (l ++ [a; b]) with (l ++ [a] ++ [b])
    end.
    by rewrite app_assoc, last_snoc. }
  split.
  { rewrite Hwal. apply scan_index_absent.
    apply (replay_pending_committed (walRecords w)
             (set_Denominator
                (set_file (set_Index sf index) (Some (sectorHousingName c sf)))
                (totalSize c sf))).
    reflexivity. }
  intros w0 handle Hfiles Hok0.
  destruct w0 as [regs unc wal fs log cs fl ent dis tg].
  unfold noFaults in Hok0. simpl in Hfiles, Hok0. subst fs.
  unfold commitAddStorageFolder, osOpenFile, logPrintln, perform, bind, ret.
  cbn [faults calls files walRecords fst snd].
  assert (default None (head fl) = None) as ->.
  { next_fault Hok0 fl; done. }
  cbn. rewrite Hfs. unfold sectorHousingName. cbn [Path set_file].
  rewrite lookup_insert_eq. cbn. done.
Qed.

(** X13: an addition interrupted after the allocation is undone at the next
    start.  When the fault-injection hook ends [managedAddStorageFolder]
    early on a log without unfinished additions, the scan of the log finds
    exactly the one folder; the cleanup (no collaborator failing) removes its
    sector file and appends its errored record, after which the scan finds
    nothing. *)
Theorem disrupted_add_then_cleanup (sf : storageFolder) (w : World) :
  Path sf ∉ Path <$> committedFolders w →
  Path sf ∉ Path <$> pendingFolders w →
  Z.of_nat (size (uniqueFolders w)) ≤ maximumStorageFolders c →
  (∃ i, 0 ≤ i < 65536 ∧ i ∉ uniqueFolders w) →
  noFaults w →
  0 ≤ atomicProgressNumerator sf < 18446744073709551616 →
  disrupt w "incompleteAddStorageFolder" = true →
  findUnfinishedStorageFolderAdditions (walRecords w) = [] →
  ∃ sf1 w',
    (managedAddStorageFolder c sf w).2 = w'
    ∧ findUnfinishedStorageFolderAdditions (walRecords w') = [sf1]
    ∧ Path sf1 = Path sf
    ∧ files w' !! sectorHousingName c sf1 = Some (File (totalSize c sf))
    ∧ (∀ w0, files w0 = files w' → noFaults w0 →
         ∃ w0', cleanupUnfinishedStorageFolderAdditions c (walRecords w') w0
                = (None, w0')
                ∧ files w0' !! sectorHousingName c sf1 = None
                ∧ walRecords w0' = walRecords w0 ++ [erroredChange (Index sf1)]
                ∧ findUnfinishedStorageFolderAdditions
                    (walRecords w' ++ [erroredChange (Index sf1)]) = []).
Proof.
  intros Hc Hp Hsize Hfree Hok Hnum Hdisrupt Hclean.
  destruct (managedAdd_disrupt c sf w Hc Hp Hsize Hfree Hok Hnum Hdisrupt)
    as (index & w' & Hrun & Hregs & Hwal & Hfs).
  cbn zeta in *.
  lazymatch type of Hwal with
  | _ = _ ++ [pendingChange ?s1] => exists s1, w'
  end.
  rewrite Hrun. cbn [snd].
  assert (replayFrom ∅ (walRecords w) = ∅) as Hempty.
  { unfold findUnfinishedStorageFolderAdditions in Hclean.
    apply fmap_nil_inv in Hclean. by apply map_to_list_empty_iff. }
  lazymatch type of Hwal with
  | _ = _ ++ [pendingChange ?s1] =>
      assert (findUnfinishedStorageFolderAdditions (walRecords w') = [s1])
        as Hscan
  end.
  { unfold findUnfinishedStorageFolderAdditions.
    rewrite Hwal, replayFrom_app, Hempty. cbn.
    rewrite insert_empty, map_to_list_singleton. reflexivity. }
  split; [reflexivity|]. split; [exact Hscan|]. split; [reflexivity|].
  split; [by rewrite Hfs; apply lookup_insert_eq|].
  intros w0 Hfiles Hok0.
  destruct (cleanup_noFaults (walRecords w') w0 Hok0)
    as (w0' & Hclean0 & Hwal0 & _ & Hgone & Hrescan).
  rewrite Hscan in Hwal0, Hgone, Hrescan.
  exists w0'. split; [exact Hclean0|].
  split; [apply Hgone, list_elem_of_here|].
  split; [exact Hwal0|exact Hrescan].
Qed.

(** X14: [AddStorageFolder] hands a request to [managedAddStorageFolder]
    exactly when the request passes its own checks, and then returns that
    function's result; a request that fails a check is answered with an
    error and nothing at all has changed. *)
Theorem AddStorageFolder_checks_first (path : string) (size : Z) (w : World) :
  0 ≤ size < 18446744073709551616 →
  (validRequest c path size w →
     (AddStorageFolder c path size w).1
     = (managedAddStorageFolder c (newStorageFolder c path size) w).1.1)
  ∧ (¬ validRequest c path size w →
     ∃ e, AddStorageFolder c path size w = (Some e, w)).
Proof.
  intros Hsize. split.
  - intros Hvalid. rewrite AddStorageFolder_valid by done. unfold bind.
    destruct (managedAddStorageFolder _ _ _) as [[[e|] sf'] w']; reflexivity.
  - intros Hinvalid.
    unfold AddStorageFolder, bind, tgAdd, osStat, ret.
    destruct (tgStopped w) eqn:Htg; [eauto|].
    destruct (Z.gtb_spec (size / SectorSize c) (maximumSectorsPerStorageFolder c));
      [eauto|].
    destruct (Z.ltb_spec (size / SectorSize c) (minimumSectorsPerStorageFolder c));
      [eauto|].
    destruct (Z.eqb_spec ((size / SectorSize c) mod storageFolderGranularity c) 0);
      cbn [negb]; [|eauto].
    destruct (IsAbs path) eqn:Habs; cbn [negb]; [|eauto].
    destruct (files w !! path) as [[|n]|] eqn:Hlook; cbn; eauto.
    exfalso. apply Hinvalid. unfold validRequest. split_and!; done || lia.
Qed.

End Recovery.

(** X15: records without pending additions can only cancel.  After such
    records are appended to a log, a folder is still unfinished exactly if it
    was unfinished before and none of the appended records names its
    index. *)
Theorem findUnfinished_after_terminations (scs1 scs2 : list stateChange)
  (f : storageFolder) :
  Forall (λ sc, UnfinishedStorageFolderAdditions sc = []) scs2 →
  f ∈ findUnfinishedStorageFolderAdditions (scs1 ++ scs2) ↔
  f ∈ findUnfinishedStorageFolderAdditions scs1
  ∧ Forall (λ e, entryIndex e ≠ Index f) (entries scs2).
Proof.
  intros Hnone.
  assert (∀ sf, PendingAddition sf ∉ entries scs2) as Hpending.
  { intros sf Hin. unfold entries in Hin.
    apply list_elem_of_bind in Hin as (sc & Hin & Hsc).
    rewrite Forall_forall in Hnone. specialize (Hnone _ Hsc).
    unfold entriesOf in Hin. rewrite Hnone in Hin. cbn in Hin.
    apply elem_of_app in Hin as [Hin|Hin];
      apply list_elem_of_fmap in Hin as (x & Hx & _); discriminate Hx. }
  rewrite !findUnfinished_lookup, replayFrom_app, replayFrom_entries,
    foldl_applyEntry_lookup.
  split.
  - intros [(pre & post & Heq & _)|H]; [|exact H].
    exfalso. apply (Hpending f). rewrite Heq.
    apply elem_of_app. right. apply list_elem_of_here.
  - intros H. by right.
Qed.

(** ** The further properties on concrete runs *)

Lemma managedAdd_over_capacity_example :
  managedAddStorageFolder smallConstants
    (newStorageFolder smallConstants "/data" 262144) overfullWorld
  = (Some errMaxStorageFolders, newStorageFolder smallConstants "/data" 262144,
     overfullWorld).
Proof.
  apply (managedAdd_over_capacity smallConstants
           (newStorageFolder smallConstants "/data" 262144) overfullWorld).
  - apply (bool_decide_unpack _). by vm_compute.
  - apply (bool_decide_unpack _). by vm_compute.
  - by vm_compute.
Defined.

Lemma managedAdd_index_space_exhausted_example :
  (managedAddStorageFolder largeConstants
     (newStorageFolder largeConstants "/data" 268435456) fullWorld).1
  = (Some errMaxStorageFolders, newStorageFolder largeConstants "/data" 268435456).
Proof.
  apply (managedAdd_index_space_exhausted largeConstants
           (newStorageFolder largeConstants "/data" 268435456) fullWorld).
  - apply fullWorld_no_such_path.
  - apply not_elem_of_nil.
  - apply fullWorld_all_used.
Defined.

Lemma managedAdd_create_fails_example :
  let r := managedAddStorageFolder smallConstants
             (newStorageFolder smallConstants "/data" 262144)
             (scheduled [Some (errEnv "create: permission denied")]) in
  r.1.1 = Some (errExtended "could not create storage folder file"
                  (errEnv "create: permission denied"))
  ∧ walRecords r.2 = []
  ∧ calls r.2 = [CallCreateFile "/data/siahostdata.dat"].
Proof.
  destruct (managedAdd_create_fails smallConstants
              (newStorageFolder smallConstants "/data" 262144)
              (scheduled [Some (errEnv "create: permission denied")])
              (errEnv "create: permission denied") [])
    as (Herr & Hwal & _ & _ & _ & Hcalls).
  - apply (bool_decide_unpack _). by vm_compute.
  - apply (bool_decide_unpack _). by vm_compute.
  - vm_compute. discriminate.
  - exists 0. split; [lia|]. apply (bool_decide_unpack _). by vm_compute.
  - reflexivity.
  - cbn zeta. split; [exact Herr|]. split; [exact Hwal|exact Hcalls].
Defined.

Lemma managedAdd_write_fails_example :
  ∃ sf' w',
    managedAddStorageFolder largeConstants
      (newStorageFolder largeConstants "/data" 268435456)
      (scheduled (None :: None :: replicate 5 None
                  ++ [Some (errEnv "write: no space left on device"); None; None]))
    = (Some (errExtended "could not allocate storage folder"
               (errEnv "write: no space left on device")), sf', w')
    ∧ atomicProgressNumerator sf' = 20000000
    ∧ atomicProgressDenominator sf' = 268436352
    ∧ storageFolders w' = ∅
    ∧ files w' !! "/data/siahostdata.dat" = None.
Proof.
  destruct (managedAdd_write_fails largeConstants
              (newStorageFolder largeConstants "/data" 268435456)
              (scheduled (None :: None :: replicate 5 None
                          ++ [Some (errEnv "write: no space left on device");
                              None; None]))
              5 (errEnv "write: no space left on device") [])
    as (sf1 & sf' & w' & Hrun & _ & _ & Hnum & Hden & Hregs & _ & Hfs & _).
  - apply (bool_decide_unpack _). by vm_compute.
  - apply (bool_decide_unpack _). by vm_compute.
  - vm_compute. discriminate.
  - exists 0. split; [lia|]. apply (bool_decide_unpack _). by vm_compute.
  - reflexivity.
  - vm_compute. discriminate.
  - reflexivity.
  - exists sf', w'. split; [exact Hrun|]. split; [exact Hnum|].
    split; [exact Hden|]. split; [exact Hregs|].
    rewrite Hfs. apply lookup_delete_eq.
Defined.

Lemma managedAdd_sync_fails_example :
  ∃ sf' w',
    managedAddStorageFolder smallConstants
      (newStorageFolder smallConstants "/data" 262144)
      (scheduled [None; None; None; Some (errEnv "sync: input/output error");
                  None; None])
    = (Some (errExtended "could not syncronize allocated storage folder"
               (errEnv "sync: input/output error")), sf', w')
    ∧ storageFolders w' = ∅
    ∧ files w' !! "/data/siahostdata.dat" = None.
Proof.
  destruct (managedAdd_sync_fails smallConstants
              (newStorageFolder smallConstants "/data" 262144)
              (scheduled [None; None; None; Some (errEnv "sync: input/output error");
                          None; None])
              (errEnv "sync: input/output error") [])
    as (sf1 & sf' & w' & Hrun & _ & _ & Hregs & _ & Hfs & _).
  - apply (bool_decide_unpack _). by vm_compute.
  - apply (bool_decide_unpack _). by vm_compute.
  - vm_compute. discriminate.
  - exists 0. split; [lia|]. apply (bool_decide_unpack _). by vm_compute.
  - reflexivity.
  - reflexivity.
  - exists sf', w'. split; [exact Hrun|]. split; [exact Hregs|].
    rewrite Hfs. apply lookup_delete_eq.
Defined.

Lemma managedAdd_commit_append_fails_example :
  ∃ sf' w',
    managedAddStorageFolder smallConstants
      (newStorageFolder smallConstants "/data" 262144)
      (scheduled [None; None; None; None;
                  Some (errEnv "write: no space left on device"); None; None])
    = (Some (errExtended "storage folder commitment assignment failed"
               (errEnv "write: no space left on device")), sf', w')
    ∧ storageFolders w' !! Index sf' = Some sf'
    ∧ files w' !! "/data/siahostdata.dat" = None.
Proof.
  destruct (managedAdd_commit_append_fails smallConstants
              (newStorageFolder smallConstants "/data" 262144)
              (scheduled [None; None; None; None;
                          Some (errEnv "write: no space left on device");
                          None; None])
              (errEnv "write: no space left on device") [])
    as (sf1 & sf' & w' & Hrun & _ & _ & _ & _ & Hregs & _ & Hfs).
  - apply (bool_decide_unpack _). by vm_compute.
  - apply (bool_decide_unpack _). by vm_compute.
  - vm_compute. discriminate.
  - exists 0. split; [lia|]. apply (bool_decide_unpack _). by vm_compute.
  - reflexivity.
  - reflexivity.
  - reflexivity.
  - exists sf', w'. split; [exact Hrun|].
    split; [rewrite Hregs; apply lookup_insert_eq|].
    rewrite Hfs. apply lookup_delete_eq.
Defined.

Lemma managedAdd_pending_append_failure_ignored_example :
  ∃ sf' w',
    managedAddStorageFolder smallConstants
      (newStorageFolder smallConstants "/data" 262144)
      (scheduled [None; Some (errEnv "write: no space left on device");
                  None; None; None])
    = (None, sf', w')
    ∧ storageFolders w' !! Index sf' = Some sf'
    ∧ walRecords w' = [committedChange sf'].
Proof.
  destruct (managedAdd_pending_append_failure_ignored smallConstants
              (newStorageFolder smallConstants "/data" 262144)
              (scheduled [None; Some (errEnv "write: no space left on device");
                          None; None; None])
              (errEnv "write: no space left on device") [])
    as (sf' & w' & Hrun & _ & _ & Hregs & Hwal & _).
  - apply (bool_decide_unpack _). by vm_compute.
  - apply (bool_decide_unpack _). by vm_compute.
  - vm_compute. discriminate.
  - exists 0. split; [lia|]. apply (bool_decide_unpack _). by vm_compute.
  - reflexivity.
  - reflexivity.
  - reflexivity.
  - exists sf', w'. split; [exact Hrun|].
    split; [rewrite Hregs; apply lookup_insert_eq|exact Hwal].
Defined.

Lemma managedAdd_keeps_registry_invariants_example :
  let w' := (managedAddStorageFolder smallConstants
               (newStorageFolder smallConstants "/data" 262144)
               oneFolderWorld).2 in
  wellKeyed (storageFolders w')
  ∧ distinctPaths (storageFolders w')
  ∧ storageFolders w' !! 3 = Some (registered 3 "/f3").2.
Proof.
  destruct (managedAdd_keeps_registry_invariants smallConstants
              (newStorageFolder smallConstants "/data" 262144) oneFolderWorld)
    as (Hkeyed & Hpaths & Hkept).
  - cbn. lia.
  - intros k f Hlook. unfold oneFolderWorld in Hlook. cbn [storageFolders] in Hlook.
    apply lookup_singleton_Some in Hlook as [<- <-]. reflexivity.
  - intros k1 k2 f1 f2 H1 H2 _. unfold oneFolderWorld in H1, H2.
    cbn [storageFolders] in H1, H2.
    apply lookup_singleton_Some in H1 as [<- _].
    apply lookup_singleton_Some in H2 as [<- _]. reflexivity.
  - cbn zeta. split; [exact Hkeyed|]. split; [exact Hpaths|].
    apply Hkept. unfold oneFolderWorld. cbn [storageFolders].
    apply lookup_singleton_eq.
Defined.

Lemma allocate_numerator_bounded_example :
  let locked := addLocked largeConstants
                  (newStorageFolder largeConstants "/data" 268435456)
                  (scheduled [None; None; None; None; None;
                              Some (errEnv "write: no space left on device")]) in
  let sf' := (allocate largeConstants locked.1.2 locked.2).1.2 in
  0 ≤ atomicProgressNumerator sf' ≤ atomicProgressDenominator sf'
  ∧ (4000000 | atomicProgressNumerator sf')
  ∧ atomicProgressDenominator sf' = 268436352.
Proof.
  cbn zeta.
  apply (allocate_numerator_bounded largeConstants
           (addLocked largeConstants
              (newStorageFolder largeConstants "/data" 268435456)
              (scheduled [None; None; None; None; None;
                          Some (errEnv "write: no space left on device")])).1.2).
  - by vm_compute.
  - by vm_compute.
Defined.

Lemma cleanup_restores_consistency_example :
  ∃ w', cleanupUnfinishedStorageFolderAdditions smallConstants threeUnfinished
          missingFileWorld = (None, w')
        ∧ length (walRecords w') = 3%nat
        ∧ findUnfinishedStorageFolderAdditions
            (threeUnfinished
               ++ ((λ sf, erroredChange (Index sf))
                     <$> findUnfinishedStorageFolderAdditions threeUnfinished))
          = [].
Proof.
  destruct (cleanup_restores_consistency smallConstants threeUnfinished
              missingFileWorld)
    as (w' & Hrun & Hwal & _ & _ & Hscan).
  - constructor.
  - exists w'. split; [exact Hrun|]. split; [by rewrite Hwal|exact Hscan].
Defined.

Lemma cleanup_tolerates_failed_removals_example :
  ∃ w', cleanupUnfinishedStorageFolderAdditions smallConstants threeUnfinished
          (scheduled [Some (errEnv "remove: c"); None;
                      Some (errEnv "remove: b"); None;
                      Some (errEnv "remove: a"); None])
        = (None, w')
        ∧ walRecords w' = [erroredChange 3; erroredChange 2; erroredChange 1]
        ∧ length (logLines w') = 3%nat.
Proof.
  destruct (cleanup_tolerates_failed_removals smallConstants threeUnfinished
              (scheduled [Some (errEnv "remove: c"); None;
                          Some (errEnv "remove: b"); None;
                          Some (errEnv "remove: a"); None])
              [errEnv "remove: c"; errEnv "remove: b"; errEnv "remove: a"] [])
    as (w' & Hrun & Hwal & _ & Hlog & _).
  - reflexivity.
  - reflexivity.
  - exists w'. split; [exact Hrun|]. split; [exact Hwal|]. by rewrite Hlog.
Defined.

Lemma add_then_replay_example :
  ∃ sf' w',
    managedAddStorageFolder smallConstants
      (newStorageFolder smallConstants "/data" 262144) freshWorld
    = (None, sf', w')
    ∧ last (walRecords w') = Some (committedChange sf')
    ∧ (commitAddStorageFolder smallConstants (set_file sf' None)
         (mkWorld ∅ [] [] (files w') [] [] [] [] (λ _, false) false)).1 = sf'.
Proof.
  destruct (add_then_replay smallConstants
              (newStorageFolder smallConstants "/data" 262144) freshWorld)
    as (sf' & w' & Hrun & _ & Hlast & _ & Hreplay).
  - apply (bool_decide_unpack _). by vm_compute.
  - apply (bool_decide_unpack _). by vm_compute.
  - vm_compute. discriminate.
  - exists 0. split; [lia|]. apply (bool_decide_unpack _). by vm_compute.
  - constructor.
  - cbn. lia.
  - reflexivity.
  - exists sf', w'. split; [exact Hrun|]. split; [exact Hlast|].
    apply Hreplay; [reflexivity|constructor].
Defined.

Lemma disrupted_add_then_cleanup_example :
  ∃ sf1 w',
    (managedAddStorageFolder smallConstants
       (newStorageFolder smallConstants "/data" 262144) disruptedWorld).2 = w'
    ∧ findUnfinishedStorageFolderAdditions (walRecords w') = [sf1]
    ∧ ∃ w0',
        cleanupUnfinishedStorageFolderAdditions smallConstants (walRecords w')
          (mkWorld ∅ [] [] (files w') [] [] [] [] (λ _, false) false)
        = (None, w0')
        ∧ files w0' !! sectorHousingName smallConstants sf1 = None.
Proof.
  destruct (disrupted_add_then_cleanup smallConstants
              (newStorageFolder smallConstants "/data" 262144) disruptedWorld)
    as (sf1 & w' & Hrun & Hscan & _ & _ & Hcleanup).
  - apply (bool_decide_unpack _). by vm_compute.
  - apply (bool_decide_unpack _). by vm_compute.
  - vm_compute. discriminate.
  - exists 0. split; [lia|]. apply (bool_decide_unpack _). by vm_compute.
  - constructor.
  - cbn. lia.
  - reflexivity.
  - reflexivity.
  - exists sf1, w'. split; [exact Hrun|]. split; [exact Hscan|].
    destruct (Hcleanup (mkWorld ∅ [] [] (files w') [] [] [] [] (λ _, false) false))
      as (w0' & Hclean & Hgone & _); [reflexivity|constructor|].
    exists w0'. split; [exact Hclean|exact Hgone].
Defined.

Lemma AddStorageFolder_checks_first_example :
  (∃ e, AddStorageFolder smallConstants "data" 262144 freshWorld
        = (Some e, freshWorld))
  ∧ (AddStorageFolder smallConstants "/data" 262144 freshWorld).1
    = (managedAddStorageFolder smallConstants
         (newStorageFolder smallConstants "/data" 262144) freshWorld).1.1.
Proof.
  split.
  - destruct (AddStorageFolder_checks_first smallConstants "data" 262144
                freshWorld) as [_ Hinvalid]; [lia|].
    apply Hinvalid. intros (_ & _ & _ & _ & Habs & _). discriminate Habs.
  - destruct (AddStorageFolder_checks_first smallConstants "/data" 262144
                freshWorld) as [Hvalid _]; [lia|].
    apply Hvalid. split; [reflexivity|]. split; [lia|].
    split; [by vm_compute|]. split; [reflexivity|]. split; reflexivity.
Defined.

Lemma findUnfinished_after_terminations_example :
  exampleFolder 1 "/a"
  ∈ findUnfinishedStorageFolderAdditions
      (threeUnfinished ++ [erroredChange 2; committedChange (exampleFolder 3 "/c")]).
Proof.
  apply (findUnfinished_after_terminations threeUnfinished
           [erroredChange 2; committedChange (exampleFolder 3 "/c")]
           (exampleFolder 1 "/a")).
  - repeat constructor.
  - split.
    + replace (findUnfinishedStorageFolderAdditions threeUnfinished)
        with [exampleFolder 3 "/c"; exampleFolder 2 "/b"; exampleFolder 1 "/a"]
        by (by vm_compute).
      set_solver.
    + repeat constructor; discriminate.
Defined.
